(** * dperf: the KNI bridge (src/kni.c)

    A shallow embedding of [kni.c].  The file drives five groups of
    collaborators that live outside of it: the ethdev hardware queries, the
    rte_kni library, the socket/ioctl interface-control channel, the packet
    buffer helpers and the statistics counters.  Every call to one of them is
    recorded as an [event] in a chronological trace, and its result is taken
    from an environment [env] of oracles that may depend on the whole history.
    The functions of [kni.c] themselves are written in a small state monad over
    that trace. *)

From Stdlib Require Import ZArith String Ascii Bool Lia PeanoNat.
From Stdlib Require Import DecimalString DecimalNat List.
Import ListNotations.
Local Open Scope string_scope.
Local Open Scope list_scope.
Local Open Scope Z_scope.

(** ** Constants of the headers kni.c includes *)

(** DPDK, rte_kni_common.h: size of [rte_kni_conf.name], equal to the
    kernel's IFNAMSIZ. *)
Definition RTE_KNI_NAMESIZE : nat := 16.

(** DPDK, rte_mbuf_core.h. *)
Definition RTE_MBUF_DEFAULT_DATAROOM : Z := 2048.

(** Linux, linux/if.h. *)
Definition IFF_UP : Z := 1.

(** ** Data *)

(** Conversion to [uint16_t], as in [uint16_t port_id = port->id]. *)
Definition uint16_t (z : Z) : Z := z mod 65536.

Definition rte_mempool := Z.
Definition rte_mbuf := Z.
Definition rte_ether_addr := list Z.

(** The two fields of [struct rte_eth_dev_info] that kni.c reads. *)
Record rte_eth_dev_info := mk_dev_info {
  dev_min_mtu : Z;
  dev_max_mtu : Z
}.

Record rte_kni_conf := mk_conf {
  conf_name : string;
  conf_group_id : Z;
  conf_mbuf_size : Z;
  conf_mac_addr : rte_ether_addr;
  conf_min_mtu : Z;
  conf_max_mtu : Z;
  conf_mtu : Z
}.

(** [memset(&conf, 0, sizeof(conf))]. *)
Definition conf_zero : rte_kni_conf :=
  mk_conf "" 0 0 [0; 0; 0; 0; 0; 0] 0 0 0.

Definition set_name (c : rte_kni_conf) (n : string) : rte_kni_conf :=
  mk_conf n (conf_group_id c) (conf_mbuf_size c) (conf_mac_addr c)
          (conf_min_mtu c) (conf_max_mtu c) (conf_mtu c).
Definition set_group_id (c : rte_kni_conf) (g : Z) : rte_kni_conf :=
  mk_conf (conf_name c) g (conf_mbuf_size c) (conf_mac_addr c)
          (conf_min_mtu c) (conf_max_mtu c) (conf_mtu c).
Definition set_mbuf_size (c : rte_kni_conf) (s : Z) : rte_kni_conf :=
  mk_conf (conf_name c) (conf_group_id c) s (conf_mac_addr c)
          (conf_min_mtu c) (conf_max_mtu c) (conf_mtu c).
Definition set_mac_addr (c : rte_kni_conf) (m : rte_ether_addr) : rte_kni_conf :=
  mk_conf (conf_name c) (conf_group_id c) (conf_mbuf_size c) m
          (conf_min_mtu c) (conf_max_mtu c) (conf_mtu c).
Definition set_min_mtu (c : rte_kni_conf) (m : Z) : rte_kni_conf :=
  mk_conf (conf_name c) (conf_group_id c) (conf_mbuf_size c) (conf_mac_addr c)
          m (conf_max_mtu c) (conf_mtu c).
Definition set_max_mtu (c : rte_kni_conf) (m : Z) : rte_kni_conf :=
  mk_conf (conf_name c) (conf_group_id c) (conf_mbuf_size c) (conf_mac_addr c)
          (conf_min_mtu c) m (conf_mtu c).
Definition set_mtu (c : rte_kni_conf) (m : Z) : rte_kni_conf :=
  mk_conf (conf_name c) (conf_group_id c) (conf_mbuf_size c) (conf_mac_addr c)
          (conf_min_mtu c) (conf_max_mtu c) m.

(** A [struct rte_kni *] that is not NULL: what [rte_kni_alloc] keeps of its
    arguments (the configuration it was given and the buffer pool). *)
Record rte_kni := mk_kni {
  kni_conf : rte_kni_conf;
  kni_pktmbuf_pool : rte_mempool
}.

(** [struct netif_port]: the fields kni.c touches.  [port_kni] is the
    [kni] pointer, [None] for NULL. *)
Record netif_port := mk_port {
  id : Z;
  mbuf_pool : nat -> rte_mempool;
  port_kni : option rte_kni
}.

Definition set_port_kni (p : netif_port) (k : option rte_kni) : netif_port :=
  mk_port (id p) (mbuf_pool p) k.

(** [struct config]: the enable flag [kni], the name prefix [kni_ifname] and
    the array [ports[0 .. port_num)].  A [struct netif_port *port] into that
    array is carried as the offset [port - &cfg->ports[0]] together with the
    port it points to. *)
Record config := mk_config {
  cfg_kni : bool;
  kni_ifname : string;
  ports : list netif_port
}.

Definition set_ports (cfg : config) (ps : list netif_port) : config :=
  mk_config (cfg_kni cfg) (kni_ifname cfg) ps.

(** [struct work_space]: kni.c only follows [ws->port]. *)
Record work_space := mk_ws {
  ws_port : netif_port
}.

(** ** Calls that leave kni.c *)

Inductive event : Type :=
| Ev_rte_kni_init (max_kni_ifaces : nat)
| Ev_rte_eth_dev_info_get (port_id : Z) (ret : Z)
| Ev_rte_eth_dev_get_mtu (port_id : Z) (ret : Z)
| Ev_rte_eth_macaddr_get (port_id : Z) (ret : Z)
| Ev_rte_kni_alloc (pool : rte_mempool) (conf : rte_kni_conf) (ok : bool)
| Ev_rte_kni_release (kni : rte_kni) (ret : Z)
| Ev_rte_kni_tx_burst (kni : rte_kni) (m : rte_mbuf) (ret : Z)
| Ev_rte_kni_handle_request (kni : option rte_kni)
| Ev_rte_kni_rx_burst (kni : option rte_kni) (num : nat) (mbufs : list rte_mbuf)
| Ev_socket (fd : Z)
| Ev_ioctl_SIOCGIFFLAGS (fd : Z) (ifr_name : string) (ret : Z)
| Ev_ioctl_SIOCSIFFLAGS (fd : Z) (ifr_name : string) (ifr_flags : Z) (ret : Z)
| Ev_close (fd : Z)
| Ev_printf (msg : string)
| Ev_mbuf_free (m : rte_mbuf)
| Ev_net_stats_drop
| Ev_net_stats_kni_rx
| Ev_net_stats_kni_tx
| Ev_work_space_tx_send (m : rte_mbuf).

Definition trace := list event.

(** What the collaborators answer.  Every oracle sees the history so far, so
    an answer may change from one call to the next. *)
Record env := mk_env {
  env_dev_info_get : trace -> Z -> Z * rte_eth_dev_info;
  env_dev_get_mtu : trace -> Z -> Z * Z;
  env_macaddr_get : trace -> Z -> Z * rte_ether_addr;
  env_kni_alloc : trace -> rte_mempool -> rte_kni_conf -> bool;
  env_kni_release : trace -> rte_kni -> Z;
  env_kni_tx_burst : trace -> rte_kni -> rte_mbuf -> Z;
  env_kni_rx_burst : trace -> option rte_kni -> list rte_mbuf;
  env_socket : trace -> Z;
  env_ioctl_get : trace -> Z -> string -> Z * Z;
  env_ioctl_set : trace -> Z -> string -> Z -> Z
}.

(** ** The monad: a computation reads and extends the trace *)

Definition M (A : Type) : Type := trace -> A * trace.

Definition Ret {A} (a : A) : M A := fun tr => (a, tr).

Definition Bind {A B} (m : M A) (f : A -> M B) : M B :=
  fun tr => let (a, tr') := m tr in f a tr'.

Notation "x <- m ;; k" := (Bind m (fun x => k))
  (at level 61, m at next level, right associativity).
Notation "' pat <- m ;; k" := (Bind m (fun x => match x with pat => k end))
  (at level 61, pat pattern, m at next level, right associativity).
Notation "m ;;; k" := (Bind m (fun _ => k))
  (at level 61, right associativity).

(** An external call: ask the oracle at the current history, log the call. *)
Definition call {A} (oracle : trace -> A) (ev : A -> event) : M A :=
  fun tr => let r := oracle tr in (r, tr ++ [ev r]).

Definition emit (e : event) : M unit := fun tr => (tt, tr ++ [e]).

Definition newline : string := String (ascii_of_nat 10) EmptyString.

(** ** snprintf(name, size, "%s%d", s, d) *)

(** [%d] of a non-negative [int]. *)
Definition fmt_d (d : nat) : string :=
  NilEmpty.string_of_uint (Nat.to_uint d).

(** The string left in [name]: at most [size - 1] characters are stored
    before the terminating NUL. *)
Definition snprintf_s_d (size : nat) (s : string) (d : nat) : string :=
  substring 0 (size - 1) (s ++ fmt_d d)%string.

Section Kni.

(** Constants of port.h, which is not part of the sources at hand. *)
Variable NB_RXD : nat.
Variable NETIF_PORT_MAX : nat.

Variable E : env.

(** *** Collaborators *)

Definition rte_kni_init (n : nat) : M unit := emit (Ev_rte_kni_init n).

Definition rte_eth_dev_info_get (port_id : Z) : M (Z * rte_eth_dev_info) :=
  call (fun tr => env_dev_info_get E tr port_id)
       (fun r => Ev_rte_eth_dev_info_get port_id (fst r)).

(** [rte_eth_dev_get_mtu(port_id, &mtu)] stores through [mtu] only when it
    succeeds; the result is the return code and the value [mtu] holds
    afterwards. *)
Definition rte_eth_dev_get_mtu (port_id : Z) (mtu : Z) : M (Z * Z) :=
  call (fun tr => let (r, v) := env_dev_get_mtu E tr port_id in
                  (r, if r =? 0 then v else mtu))
       (fun r => Ev_rte_eth_dev_get_mtu port_id (fst r)).

Definition rte_eth_macaddr_get (port_id : Z) : M (Z * rte_ether_addr) :=
  call (fun tr => env_macaddr_get E tr port_id)
       (fun r => Ev_rte_eth_macaddr_get port_id (fst r)).

(** [rte_kni_alloc(pool, &conf, NULL)]: NULL or a handle holding [conf]. *)
Definition rte_kni_alloc (pool : rte_mempool) (conf : rte_kni_conf)
  : M (option rte_kni) :=
  call (fun tr => if env_kni_alloc E tr pool conf
                  then Some (mk_kni conf pool) else None)
       (fun r => Ev_rte_kni_alloc pool conf
                   (match r with Some _ => true | None => false end)).

Definition rte_kni_release (kni : rte_kni) : M Z :=
  call (fun tr => env_kni_release E tr kni) (Ev_rte_kni_release kni).

(** [rte_kni_tx_burst(kni, &m, 1)]. *)
Definition rte_kni_tx_burst (kni : rte_kni) (m : rte_mbuf) : M Z :=
  call (fun tr => env_kni_tx_burst E tr kni m) (Ev_rte_kni_tx_burst kni m).

Definition rte_kni_handle_request (kni : option rte_kni) : M unit :=
  emit (Ev_rte_kni_handle_request kni).

(** [rte_kni_rx_burst(kni, mbufs, num)] fills at most [num] slots of [mbufs]
    and returns how many. *)
Definition rte_kni_rx_burst (kni : option rte_kni) (num : nat)
  : M (list rte_mbuf) :=
  call (fun tr => firstn num (env_kni_rx_burst E tr kni))
       (Ev_rte_kni_rx_burst kni num).

Definition socket : M Z := call (env_socket E) Ev_socket.

(** [ioctl(fd, SIOCGIFFLAGS, &ifr)]: return code and [ifr.ifr_flags]
    afterwards. *)
Definition ioctl_SIOCGIFFLAGS (fd : Z) (ifr_name : string) : M (Z * Z) :=
  call (fun tr => env_ioctl_get E tr fd ifr_name)
       (fun r => Ev_ioctl_SIOCGIFFLAGS fd ifr_name (fst r)).

Definition ioctl_SIOCSIFFLAGS (fd : Z) (ifr_name : string) (flags : Z) : M Z :=
  call (fun tr => env_ioctl_set E tr fd ifr_name flags)
       (Ev_ioctl_SIOCSIFFLAGS fd ifr_name flags).

Definition close (fd : Z) : M unit := emit (Ev_close fd).
Definition printf (msg : string) : M unit := emit (Ev_printf msg).
Definition net_stats_kni_rx : M unit := emit Ev_net_stats_kni_rx.
Definition net_stats_kni_tx : M unit := emit Ev_net_stats_kni_tx.
Definition work_space_tx_send (m : rte_mbuf) : M unit :=
  emit (Ev_work_space_tx_send m).

(** Modelled from the spec: [mbuf_free2] is defined in mbuf.h, which is not
    part of the sources at hand.  Following the description of the drop path
    of forwardToKernel it releases the buffer back to its pool and increments
    the drop counter. *)
Definition mbuf_free2 (m : rte_mbuf) : M unit :=
  emit (Ev_mbuf_free m) ;;; emit Ev_net_stats_drop.

(** *** kni.c *)

Definition kni_set_mtu (port_id : Z) (conf : rte_kni_conf)
  : M (Z * rte_kni_conf) :=
  '(ret, dev_info) <- rte_eth_dev_info_get port_id ;;
  if negb (ret =? 0) then Ret (-1, conf)
  else
    let conf := set_min_mtu conf (dev_min_mtu dev_info) in
    let conf := set_max_mtu conf (dev_max_mtu dev_info) in
    '(_, mtu) <- rte_eth_dev_get_mtu port_id (conf_mtu conf) ;;
    Ret (0, set_mtu conf mtu).

Definition kni_set_mac (port_id : Z) (conf : rte_kni_conf)
  : M (Z * rte_kni_conf) :=
  '(ret, mac) <- rte_eth_macaddr_get port_id ;;
  if negb (ret =? 0) then Ret (-1, conf)
  else Ret (0, set_mac_addr conf mac).

(** [port] is the offset [port - &(cfg->ports[0])]. *)
Definition kni_set_name (cfg : config) (port : nat) : string :=
  let idx := port in
  snprintf_s_d RTE_KNI_NAMESIZE (kni_ifname cfg) idx.

Definition kni_alloc (cfg : config) (idx : nat) (port : netif_port)
  : M (option rte_kni) :=
  let mbuf_pool := mbuf_pool port 0 in
  let port_id := uint16_t (id port) in
  let conf := conf_zero in
  let conf := set_group_id conf port_id in
  let conf := set_mbuf_size conf RTE_MBUF_DEFAULT_DATAROOM in
  let conf := set_name conf (kni_set_name cfg idx) in
  '(r, conf) <- kni_set_mtu port_id conf ;;
  if r <? 0 then Ret None
  else
    '(r, conf) <- kni_set_mac port_id conf ;;
    if r <? 0 then Ret None
    else rte_kni_alloc mbuf_pool conf.

Definition kni_set_link_up (cfg : config) (idx : nat) (port : netif_port)
  : M Z :=
  match port_kni port with
  | None => Ret 0
  | Some _ =>
      fd <- socket ;;
      if fd <? 0 then Ret (-1)
      else
        let ifr_name := kni_set_name cfg idx in
        ret <-
          ('(r, ifr_flags) <- ioctl_SIOCGIFFLAGS fd ifr_name ;;
           if r <? 0 then
             printf ("kni get flags error" ++ newline)%string ;;; Ret (-1)
           else
             let ifr_flags := Z.lor ifr_flags IFF_UP in
             r <- ioctl_SIOCSIFFLAGS fd ifr_name ifr_flags ;;
             if r <? 0 then
               printf ("kni set flags error" ++ newline)%string ;;; Ret (-1)
             else Ret 0) ;;
        (* out: *)
        close fd ;;;
        Ret ret
  end.

(** The loop of [kni_link_up], from the port at offset [idx] on. *)
Fixpoint kni_link_up_from (cfg : config) (idx : nat) (ps : list netif_port)
  : M Z :=
  match ps with
  | [] => Ret 0
  | port :: rest =>
      r <- kni_set_link_up cfg idx port ;;
      if r <? 0 then Ret (-1)
      else kni_link_up_from cfg (S idx) rest
  end.

Definition kni_link_up (cfg : config) : M Z :=
  kni_link_up_from cfg 0 (ports cfg).

(** The loop of [kni_free]; the result is the array afterwards. *)
Fixpoint kni_free_from (ps : list netif_port) : M (list netif_port) :=
  match ps with
  | [] => Ret []
  | port :: rest =>
      match port_kni port with
      | None =>
          rest' <- kni_free_from rest ;;
          Ret (port :: rest')
      | Some kni =>
          r <- rte_kni_release kni ;;
          (if negb (r =? 0) then printf ("failed to free kni" ++ newline)%string
           else Ret tt) ;;;
          rest' <- kni_free_from rest ;;
          Ret (set_port_kni port None :: rest')
      end
  end.

Definition kni_free (cfg : config) : M config :=
  ps <- kni_free_from (ports cfg) ;;
  Ret (set_ports cfg ps).

(** The loop of [kni_create], from the port at offset [idx] on; the result
    is the return code and the array afterwards. *)
Fixpoint kni_create_from (cfg : config) (idx : nat) (ps : list netif_port)
  : M (Z * list netif_port) :=
  match ps with
  | [] => Ret (0, [])
  | port :: rest =>
      kni <- kni_alloc cfg idx port ;;
      match kni with
      | None => Ret (-1, port :: rest)
      | Some _ =>
          '(r, rest') <- kni_create_from cfg (S idx) rest ;;
          Ret (r, set_port_kni port kni :: rest')
      end
  end.

Definition kni_create (cfg : config) : M (Z * config) :=
  rte_kni_init NETIF_PORT_MAX ;;;
  '(r, ps) <- kni_create_from cfg 0 (ports cfg) ;;
  Ret (r, set_ports cfg ps).

Definition kni_start (cfg : config) : M (Z * config) :=
  if negb (cfg_kni cfg) then Ret (0, cfg)
  else kni_create cfg.

Definition kni_stop (cfg : config) : M config :=
  if cfg_kni cfg then kni_free cfg else Ret cfg.

Definition kni_recv (ws : work_space) (m : rte_mbuf) : M unit :=
  let port := ws_port ws in
  let kni := port_kni port in
  returned <-
    match kni with
    | Some k =>
        r <- rte_kni_tx_burst k m ;;
        if r =? 1 then net_stats_kni_rx ;;; Ret true
        else Ret false
    | None => Ret false
    end ;;
  if (returned : bool) then Ret tt
  else mbuf_free2 m.

(** The [for] loop of [kni_send] over [mbufs[0 .. num)]. *)
Fixpoint kni_send_loop (mbufs : list rte_mbuf) : M unit :=
  match mbufs with
  | [] => Ret tt
  | m :: rest =>
      work_space_tx_send m ;;;
      net_stats_kni_tx ;;;
      kni_send_loop rest
  end.

Definition kni_send (ws : work_space) : M unit :=
  let port := ws_port ws in
  let kni := port_kni port in
  rte_kni_handle_request kni ;;;
  mbufs <- rte_kni_rx_burst kni NB_RXD ;;
  kni_send_loop mbufs.

End Kni.

(** ** Observations on ports and traces *)

(** The name of the shadow interface attached to a port, if any. *)
Definition handle_name (p : netif_port) : option string :=
  option_map (fun k => conf_name (kni_conf k)) (port_kni p).

(** The group identifier of the shadow interface attached to a port. *)
Definition handle_group_id (p : netif_port) : option Z :=
  option_map (fun k => conf_group_id (kni_conf k)) (port_kni p).

(** The handles attached to the ports of an array, in array order. *)
Definition handles (ps : list netif_port) : list rte_kni :=
  flat_map (fun p => match port_kni p with Some k => [k] | None => [] end) ps.

(** The [rte_kni_release] calls of a trace with their return codes. *)
Definition releases (d : trace) : list (rte_kni * Z) :=
  flat_map (fun e => match e with
                     | Ev_rte_kni_release k r => [(k, r)]
                     | _ => []
                     end) d.

(** The messages printed in a trace. *)
Definition printed (d : trace) : list string :=
  flat_map (fun e => match e with Ev_printf s => [s] | _ => [] end) d.

(** Descriptors returned by successful [socket] calls of a trace. *)
Definition open_fds (d : trace) : list Z :=
  flat_map (fun e => match e with
                     | Ev_socket fd => if fd <? 0 then [] else [fd]
                     | _ => []
                     end) d.

(** Descriptors passed to [close] in a trace. *)
Definition closed_fds (d : trace) : list Z :=
  flat_map (fun e => match e with Ev_close fd => [fd] | _ => [] end) d.

(** Calls into the rte_kni library. *)
Definition is_kni_call (e : event) : bool :=
  match e with
  | Ev_rte_kni_init _ | Ev_rte_kni_alloc _ _ _ | Ev_rte_kni_release _ _
  | Ev_rte_kni_tx_burst _ _ _ | Ev_rte_kni_handle_request _
  | Ev_rte_kni_rx_burst _ _ _ => true
  | _ => false
  end.

(** The steps of [kni_alloc] whose failure makes it return NULL: the
    MTU-bounds query, the MAC query and the construction of the handle. *)
Definition failed_step (e : event) : bool :=
  match e with
  | Ev_rte_eth_dev_info_get _ r => negb (r =? 0)
  | Ev_rte_eth_macaddr_get _ r => negb (r =? 0)
  | Ev_rte_kni_alloc _ _ ok => negb ok
  | _ => false
  end.

(** The steps of [kni_set_link_up] that can fail. *)
Definition failed_link_step (e : event) : bool :=
  match e with
  | Ev_socket fd => fd <? 0
  | Ev_ioctl_SIOCGIFFLAGS _ _ r => r <? 0
  | Ev_ioctl_SIOCSIFFLAGS _ _ _ r => r <? 0
  | _ => false
  end.

(** Buffers handed to [work_space_tx_send] in a trace. *)
Definition tx_sent (d : trace) : list rte_mbuf :=
  flat_map (fun e => match e with Ev_work_space_tx_send m => [m] | _ => [] end)
           d.

(** Number of [net_stats_kni_tx] increments in a trace. *)
Definition kni_tx_count (d : trace) : nat :=
  length (filter (fun e => match e with Ev_net_stats_kni_tx => true
                                   | _ => false end) d).

(** What one drained buffer costs in [kni_send]. *)
Definition sent (m : rte_mbuf) : list event :=
  [Ev_work_space_tx_send m; Ev_net_stats_kni_tx].

(** [attached_from cfg idx ps ps'] : [ps'] is [ps] with a handle attached
    to every port, the handle of the port at offset [idx + j] being named by
    [kni_set_name cfg (idx + j)] and grouped under that port's id. *)
Inductive attached_from (cfg : config)
  : nat -> list netif_port -> list netif_port -> Prop :=
| attached_nil : forall idx, attached_from cfg idx [] []
| attached_cons : forall idx p h ps ps',
    conf_name (kni_conf h) = kni_set_name cfg idx ->
    conf_group_id (kni_conf h) = uint16_t (id p) ->
    conf_mbuf_size (kni_conf h) = RTE_MBUF_DEFAULT_DATAROOM ->
    kni_pktmbuf_pool h = mbuf_pool p 0 ->
    attached_from cfg (S idx) ps ps' ->
    attached_from cfg idx (p :: ps) (set_port_kni p (Some h) :: ps').

(** ** Concrete collaborators and configurations *)

(** A host on which every call succeeds. *)
Definition env_ok : env :=
  mk_env (fun _ _ => (0, mk_dev_info 68 9000))
         (fun _ _ => (0, 1500))
         (fun _ _ => (0, [2; 0; 0; 0; 0; 1]))
         (fun _ _ _ => true)
         (fun _ _ => 0)
         (fun _ _ _ => 1)
         (fun _ _ => [101; 102; 103])
         (fun _ => 3)
         (fun _ _ _ => (0, 4098))
         (fun _ _ _ _ => 0).

Definition pool_of (n : nat) : rte_mempool := 7000 + Z.of_nat n.

(** Two ports with hardware ids 5 and 2, prefix "kni". *)
Definition cfg_5_2 : config :=
  mk_config true "kni" [mk_port 5 pool_of None; mk_port 2 pool_of None].

(** A prefix of RTE_KNI_NAMESIZE - 1 characters. *)
Definition cfg_long : config :=
  mk_config true "abcdefghijklmno"
            [mk_port 0 pool_of None; mk_port 1 pool_of None].

Definition cfg_long_1 : config :=
  mk_config true "abcdefghijklmno" [mk_port 0 pool_of None].

(** Another prefix of RTE_KNI_NAMESIZE - 1 characters, one port. *)
Definition cfg_trunc : config :=
  mk_config true "dperf_kni_port_" [mk_port 0 pool_of None].

(** A host whose MTU-bounds query fails for port id 2. *)
Definition env_port2_fails : env :=
  mk_env (fun _ pid => if pid =? 2 then (-19, mk_dev_info 0 0)
                       else (0, mk_dev_info 68 9000))
         (env_dev_get_mtu env_ok) (env_macaddr_get env_ok)
         (env_kni_alloc env_ok) (env_kni_release env_ok)
         (env_kni_tx_burst env_ok) (env_kni_rx_burst env_ok)
         (env_socket env_ok) (env_ioctl_get env_ok) (env_ioctl_set env_ok).

(** A host whose current-MTU query fails, everything else succeeding. *)
Definition env_mtu_fails : env :=
  mk_env (env_dev_info_get env_ok)
         (fun _ _ => (-95, 1500))
         (env_macaddr_get env_ok)
         (env_kni_alloc env_ok) (env_kni_release env_ok)
         (env_kni_tx_burst env_ok) (env_kni_rx_burst env_ok)
         (env_socket env_ok) (env_ioctl_get env_ok) (env_ioctl_set env_ok).

(** A host on which releasing the handle of group 5 fails. *)
Definition env_release_fails : env :=
  mk_env (env_dev_info_get env_ok) (env_dev_get_mtu env_ok)
         (env_macaddr_get env_ok) (env_kni_alloc env_ok)
         (fun _ k => if conf_group_id (kni_conf k) =? 5 then -1 else 0)
         (env_kni_tx_burst env_ok) (env_kni_rx_burst env_ok)
         (env_socket env_ok) (env_ioctl_get env_ok) (env_ioctl_set env_ok).

(** A host whose kernel-facing queue is full. *)
Definition env_queue_full : env :=
  mk_env (env_dev_info_get env_ok) (env_dev_get_mtu env_ok)
         (env_macaddr_get env_ok) (env_kni_alloc env_ok)
         (env_kni_release env_ok)
         (fun _ _ _ => 0)
         (env_kni_rx_burst env_ok)
         (env_socket env_ok) (env_ioctl_get env_ok) (env_ioctl_set env_ok).

(** A host that refuses to write the flags of "kni1". *)
Definition env_set_flags_fails : env :=
  mk_env (env_dev_info_get env_ok) (env_dev_get_mtu env_ok)
         (env_macaddr_get env_ok) (env_kni_alloc env_ok)
         (env_kni_release env_ok) (env_kni_tx_burst env_ok)
         (env_kni_rx_burst env_ok) (env_socket env_ok)
         (env_ioctl_get env_ok)
         (fun _ _ name _ => if String.eqb name "kni1" then -1 else 0).

(** [cfg_5_2] after a successful [kni_start]. *)
Definition cfg_5_2_started : config :=
  snd (fst (kni_start 4 env_ok cfg_5_2 [])).

(** A third port that never got a handle, between two that did. *)
Definition cfg_gap : config :=
  mk_config true "kni"
            (match ports cfg_5_2_started with
             | a :: b :: _ => [a; mk_port 9 pool_of None; b]
             | _ => []
             end).

Definition port_without_handle : netif_port := mk_port 5 pool_of None.

Definition port_with_handle : netif_port :=
  mk_port 5 pool_of
          (Some (mk_kni (mk_conf "kni0" 5 2048 [2; 0; 0; 0; 0; 1] 68 9000 1500)
                        7000)).

(** ** Further observations *)

(** The handles that successful [rte_kni_alloc] calls of a trace returned. *)
Definition allocated (d : trace) : list rte_kni :=
  flat_map (fun e => match e with
                     | Ev_rte_kni_alloc pool conf true => [mk_kni conf pool]
                     | _ => []
                     end) d.

(** Port ids passed to [rte_eth_dev_info_get], [rte_eth_dev_get_mtu] and
    [rte_eth_macaddr_get] in a trace. *)
Definition bounds_queried (d : trace) : list Z :=
  flat_map (fun e => match e with
                     | Ev_rte_eth_dev_info_get pid _ => [pid]
                     | _ => []
                     end) d.

Definition mtu_queried (d : trace) : list Z :=
  flat_map (fun e => match e with
                     | Ev_rte_eth_dev_get_mtu pid _ => [pid]
                     | _ => []
                     end) d.

Definition mac_queried (d : trace) : list Z :=
  flat_map (fun e => match e with
                     | Ev_rte_eth_macaddr_get pid _ => [pid]
                     | _ => []
                     end) d.

(** The calls [kni_start] can make. *)
Definition is_start_event (e : event) : bool :=
  match e with
  | Ev_rte_kni_init _ | Ev_rte_eth_dev_info_get _ _
  | Ev_rte_eth_dev_get_mtu _ _ | Ev_rte_eth_macaddr_get _ _
  | Ev_rte_kni_alloc _ _ _ => true
  | _ => false
  end.

(** The calls [kni_link_up] can make. *)
Definition is_link_event (e : event) : bool :=
  match e with
  | Ev_socket _ | Ev_ioctl_SIOCGIFFLAGS _ _ _ | Ev_ioctl_SIOCSIFFLAGS _ _ _ _
  | Ev_close _ | Ev_printf _ => true
  | _ => false
  end.

(** Interface names whose flags a trace read, and wrote. *)
Definition flag_reads (d : trace) : list string :=
  flat_map (fun e => match e with
                     | Ev_ioctl_SIOCGIFFLAGS _ name _ => [name]
                     | _ => []
                     end) d.

Definition flag_writes (d : trace) : list string :=
  flat_map (fun e => match e with
                     | Ev_ioctl_SIOCSIFFLAGS _ name _ _ => [name]
                     | _ => []
                     end) d.

(** Buffers the kernel-facing queue accepted, and buffers freed. *)
Definition accepted_bufs (d : trace) : list rte_mbuf :=
  flat_map (fun e => match e with
                     | Ev_rte_kni_tx_burst _ m r => if r =? 1 then [m] else []
                     | _ => []
                     end) d.

Definition freed_bufs (d : trace) : list rte_mbuf :=
  flat_map (fun e => match e with Ev_mbuf_free m => [m] | _ => [] end) d.

(** [attach hs ps]: the array [ps] with the handles [hs] attached to its
    first ports, one each, in order. *)
Fixpoint attach (hs : list rte_kni) (ps : list netif_port)
  : list netif_port :=
  match hs, ps with
  | h :: hs', p :: ps' => set_port_kni p (Some h) :: attach hs' ps'
  | _, _ => ps
  end.

(** A configuration with the subsystem switched off. *)
Definition cfg_off : config :=
  mk_config false "kni" [mk_port 5 pool_of None; mk_port 2 pool_of None].

(** A host on which no socket can be opened. *)
Definition env_no_socket : env :=
  mk_env (env_dev_info_get env_ok) (env_dev_get_mtu env_ok)
         (env_macaddr_get env_ok) (env_kni_alloc env_ok)
         (env_kni_release env_ok) (env_kni_tx_burst env_ok)
         (env_kni_rx_burst env_ok)
         (fun _ => -1)
         (env_ioctl_get env_ok) (env_ioctl_set env_ok).

(** The interface names [kni_link_up] addresses from offset [idx] on: one
    per port that has a handle, computed from its position. *)
Fixpoint link_names (cfg : config) (idx : nat) (ps : list netif_port)
  : list string :=
  match ps with
  | [] => []
  | p :: rest =>
      match port_kni p with
      | Some _ => kni_set_name cfg idx :: link_names cfg (S idx) rest
      | None => link_names cfg (S idx) rest
      end
  end.

(** Number of [net_stats_kni_rx] increments in a trace. *)
Definition kni_rx_count (d : trace) : nat :=
  length (filter (fun e => match e with Ev_net_stats_kni_rx => true
                                   | _ => false end) d).

(** ** Strings *)

Lemma substring_0_all (s : string) (n : nat) :
  (String.length s <= n)%nat -> substring 0 n s = s.
Proof.
  revert n; induction s as [|c s IH]; intros [|n] Hn; simpl in *;
    try reflexivity; try lia.
  f_equal. apply IH. lia.
Qed.

Lemma substring_0_length (s : string) (n : nat) :
  String.length (substring 0 n s) = Nat.min n (String.length s).
Proof.
  revert n; induction s as [|c s IH]; intros [|n]; simpl; try reflexivity.
  now rewrite IH.
Qed.

Lemma substring_0_split (s : string) (n : nat) :
  exists rest, s = (substring 0 n s ++ rest)%string /\
               String.length rest = (String.length s - n)%nat.
Proof.
  revert n; induction s as [|c s IH]; intros [|n]; simpl.
  - exists ""; auto.
  - exists ""; auto.
  - exists (String c s); auto.
  - destruct (IH n) as [rest [H1 H2]]. exists rest. split; [congruence|assumption].
Qed.


(** ** Allocation of one handle *)

Section Properties.

Variable NB_RXD : nat.
Variable NETIF_PORT_MAX : nat.
Variable E : env.

Ltac run :=
  unfold Bind, call, emit, Ret in *; simpl in *.

Lemma kni_set_mtu_fail (port_id : Z) (conf : rte_kni_conf) (tr : trace) :
  fst (env_dev_info_get E tr port_id) <> 0 ->
  kni_set_mtu E port_id conf tr =
    (-1, conf,
     tr ++ [Ev_rte_eth_dev_info_get port_id (fst (env_dev_info_get E tr port_id))]).
Proof.
  intros H. unfold kni_set_mtu, rte_eth_dev_info_get. run.
  destruct (env_dev_info_get E tr port_id) as [r d]; simpl in *.
  destruct (Z.eqb_spec r 0); [contradiction|reflexivity].
Qed.

Lemma kni_set_mtu_ok (port_id : Z) (conf : rte_kni_conf) (tr : trace) :
  fst (env_dev_info_get E tr port_id) = 0 ->
  exists conf' rm,
    kni_set_mtu E port_id conf tr =
      (0, conf',
       tr ++ [Ev_rte_eth_dev_info_get port_id 0]
          ++ [Ev_rte_eth_dev_get_mtu port_id rm]) /\
    rm = fst (env_dev_get_mtu E (tr ++ [Ev_rte_eth_dev_info_get port_id 0]) port_id) /\
    conf_name conf' = conf_name conf /\
    conf_group_id conf' = conf_group_id conf /\
    conf_mbuf_size conf' = conf_mbuf_size conf /\
    (rm <> 0 -> conf_mtu conf' = conf_mtu conf).
Proof.
  intros H. unfold kni_set_mtu, rte_eth_dev_info_get, rte_eth_dev_get_mtu. run.
  destruct (env_dev_info_get E tr port_id) as [r d]; simpl in *. subst r. simpl.
  destruct (env_dev_get_mtu E _ port_id) as [rm v] eqn:Hm; simpl.
  eexists; exists rm. rewrite <- app_assoc. simpl.
  repeat split; try reflexivity.
  intros Hrm. simpl. destruct (Z.eqb_spec rm 0); [contradiction|reflexivity].
Qed.

Lemma kni_set_mac_inv (port_id : Z) (conf conf' : rte_kni_conf)
      (r : Z) (tr tr' : trace) :
  kni_set_mac E port_id conf tr = (r, conf', tr') ->
  tr' = tr ++ [Ev_rte_eth_macaddr_get port_id
                 (fst (env_macaddr_get E tr port_id))] /\
  conf_name conf' = conf_name conf /\
  conf_group_id conf' = conf_group_id conf /\
  conf_mbuf_size conf' = conf_mbuf_size conf /\
  conf_mtu conf' = conf_mtu conf /\
  (r = -1 /\ fst (env_macaddr_get E tr port_id) <> 0 \/
   r = 0 /\ fst (env_macaddr_get E tr port_id) = 0).
Proof.
  unfold kni_set_mac, rte_eth_macaddr_get. run.
  destruct (env_macaddr_get E tr port_id) as [rc mac]; simpl.
  destruct (Z.eqb_spec rc 0); simpl; intros H; inversion H; subst; clear H;
    simpl; repeat split; auto.
Qed.

(** Whatever handle [kni_alloc] returns carries the name computed by
    [kni_set_name], the port id as group id, the default buffer size and the
    first pool of the port. *)
Lemma kni_alloc_some (cfg : config) (idx : nat) (p : netif_port)
      (h : rte_kni) (tr tr' : trace) :
  kni_alloc E cfg idx p tr = (Some h, tr') ->
  conf_name (kni_conf h) = kni_set_name cfg idx /\
  conf_group_id (kni_conf h) = uint16_t (id p) /\
  conf_mbuf_size (kni_conf h) = RTE_MBUF_DEFAULT_DATAROOM /\
  kni_pktmbuf_pool h = mbuf_pool p 0.
Proof.
  unfold kni_alloc. unfold Bind at 1.
  destruct (Z.eq_dec (fst (env_dev_info_get E tr (uint16_t (id p)))) 0) as [H0|H0].
  - destruct (kni_set_mtu_ok (uint16_t (id p))
                (set_name (set_mbuf_size (set_group_id conf_zero (uint16_t (id p)))
                             RTE_MBUF_DEFAULT_DATAROOM) (kni_set_name cfg idx))
                tr H0)
      as (c1 & rm & Heq & _ & Hn & Hg & Hs & _).
    rewrite Heq. simpl. unfold Bind at 1.
    destruct (kni_set_mac E (uint16_t (id p)) c1 _) as [[r2 c2] tr2] eqn:Hmac.
    apply kni_set_mac_inv in Hmac.
    destruct Hmac as (_ & Hn2 & Hg2 & Hs2 & _ & Hr).
    destruct Hr as [[-> _]|[-> _]]; simpl.
    + unfold Ret; intros H; inversion H.
    + unfold rte_kni_alloc, call.
      destruct (env_kni_alloc E tr2 (mbuf_pool p 0) c2).
      * intros H; inversion H; subst; clear H. simpl.
        rewrite Hn2, Hg2, Hs2, Hn, Hg, Hs. simpl. auto.
      * intros H; inversion H.
  - rewrite (kni_set_mtu_fail _ _ _ H0). simpl. unfold Ret.
    intros H; inversion H.
Qed.

(** [kni_alloc] extends the trace by its queries; it returns NULL exactly
    when one of them is a [failed_step]; a failed current-MTU query leaves
    the zero of [memset] in the handle. *)
Lemma kni_alloc_inv (cfg : config) (idx : nat) (p : netif_port)
      (res : option rte_kni) (tr tr' : trace) :
  kni_alloc E cfg idx p tr = (res, tr') ->
  exists d, tr' = tr ++ d /\
    (res = None <-> existsb failed_step d = true) /\
    (forall h rm, res = Some h ->
       In (Ev_rte_eth_dev_get_mtu (uint16_t (id p)) rm) d -> rm <> 0 ->
       conf_mtu (kni_conf h) = 0).
Proof.
  unfold kni_alloc, kni_set_mtu, kni_set_mac, rte_eth_dev_info_get,
    rte_eth_dev_get_mtu, rte_eth_macaddr_get, rte_kni_alloc. run.
  destruct (env_dev_info_get E tr _) as [r1 di]; simpl.
  destruct (Z.eqb_spec r1 0) as [->|Hr1]; simpl.
  - destruct (env_dev_get_mtu E _ _) as [rm v]; simpl.
    destruct (env_macaddr_get E _ _) as [r3 mac]; simpl.
    destruct (Z.eqb_spec r3 0) as [->|Hr3]; simpl.
    + destruct (env_kni_alloc E _ _ _) eqn:Hk; intros H; inversion H; subst;
        clear H; repeat rewrite <- app_assoc; simpl;
        (eexists; split; [reflexivity|]); simpl; split.
      * split; discriminate.
      * intros h rm' Hh Hin Hrm. inversion Hh; subst; clear Hh. simpl.
        destruct Hin as [Hin|[Hin|[Hin|[Hin|[]]]]]; try discriminate.
        inversion Hin; subst. destruct (Z.eqb_spec rm' 0); [contradiction|reflexivity].
      * split; reflexivity.
      * intros h rm' Hh; discriminate.
    + intros H; inversion H; subst; clear H; repeat rewrite <- app_assoc; simpl.
      eexists; split; [reflexivity|]. simpl. split.
      * split; [intros _|reflexivity].
        destruct (Z.eqb_spec r3 0); [contradiction|reflexivity].
      * intros h rm' Hh; discriminate.
  - intros H; inversion H; subst; clear H.
    eexists; split; [reflexivity|]. simpl. split.
    + split; [intros _|reflexivity].
      destruct (Z.eqb_spec r1 0); [contradiction|reflexivity].
    + intros h rm' Hh; discriminate.
Qed.

(** ** The loop of kni_create *)

Lemma attached_from_length (cfg : config) (idx : nat) (ps ps' : list netif_port) :
  attached_from cfg idx ps ps' -> length ps' = length ps.
Proof. induction 1; simpl; congruence. Qed.

Lemma attached_from_names (cfg : config) (idx : nat) (ps ps' : list netif_port) :
  attached_from cfg idx ps ps' ->
  map handle_name ps' =
  map (fun i => Some (kni_set_name cfg i)) (seq idx (length ps)).
Proof.
  induction 1 as [|idx p h ps ps' Hn Hg Hs Hp Hrec IH]; simpl; [reflexivity|].
  unfold handle_name at 1; simpl. rewrite Hn, IH. reflexivity.
Qed.

Lemma attached_from_group_ids (cfg : config) (idx : nat)
      (ps ps' : list netif_port) :
  attached_from cfg idx ps ps' ->
  map handle_group_id ps' = map (fun p => Some (uint16_t (id p))) ps.
Proof.
  induction 1 as [|idx p h ps ps' Hn Hg Hs Hp Hrec IH]; simpl; [reflexivity|].
  unfold handle_group_id at 1; simpl. rewrite Hg, IH. reflexivity.
Qed.

Lemma attached_from_ids (cfg : config) (idx : nat) (ps ps' : list netif_port) :
  attached_from cfg idx ps ps' -> map id ps' = map id ps.
Proof. induction 1; simpl; congruence. Qed.

(** Every run of the loop attaches handles to an initial segment [pre] of
    the array and leaves the rest untouched; it returns 0 when the segment is
    the whole array and -1 when [kni_alloc] returned NULL for the port that
    follows the segment, in which case nothing happens after that call. *)
Lemma kni_create_from_inv (cfg : config) (ps : list netif_port) :
  forall idx tr r ps' tr',
    kni_create_from E cfg idx ps tr = (r, ps', tr') ->
    exists pre pre' rest,
      ps = pre ++ rest /\ ps' = pre' ++ rest /\
      attached_from cfg idx pre pre' /\
      (r = 0 /\ rest = [] \/
       r = -1 /\ exists p rest0 tr1,
         rest = p :: rest0 /\
         kni_create_from E cfg idx pre tr = (0, pre', tr1) /\
         kni_alloc E cfg (idx + length pre) p tr1 = (None, tr')).
Proof.
  induction ps as [|p ps IH]; intros idx tr r ps' tr' H; simpl in H.
  - inversion H; subst. exists [], [], []. repeat split; auto. constructor.
  - unfold Bind at 1 in H.
    destruct (kni_alloc E cfg idx p tr) as [[h|] tr1] eqn:Halloc.
    + unfold Bind at 1 in H.
      destruct (kni_create_from E cfg (S idx) ps tr1) as [[r1 ps1] tr2] eqn:Hrec.
      inversion H; subst; clear H.
      destruct (IH _ _ _ _ _ Hrec) as (pre & pre' & rest & -> & -> & Hatt & Hres).
      exists (p :: pre), (set_port_kni p (Some h) :: pre'), rest.
      repeat split; auto.
      * destruct (kni_alloc_some _ _ _ _ _ _ Halloc) as (Hn & Hg & Hs & Hp).
        constructor; auto.
      * destruct Hres as [[-> ->]|[-> (q & rest0 & tr3 & -> & Hpre & Hq)]].
        { left; auto. }
        right; split; auto. exists q, rest0, tr3. repeat split; auto.
        { simpl. unfold Bind at 1. rewrite Halloc. unfold Bind at 1.
          rewrite Hpre. reflexivity. }
        simpl. rewrite Nat.add_succ_r. exact Hq.
    + inversion H; subst; clear H.
      exists [], [], (p :: ps). repeat split; auto; [constructor|].
      right; split; auto. exists p, ps, tr. repeat split; auto.
      simpl. rewrite Nat.add_0_r. exact Halloc.
Qed.

(** Conversely: once the loop got through [pre], it goes on with what
    follows. *)
Lemma kni_create_from_app (cfg : config) (pre : list netif_port) :
  forall idx tr pre' tr1 rest,
    kni_create_from E cfg idx pre tr = (0, pre', tr1) ->
    kni_create_from E cfg idx (pre ++ rest) tr =
    (let '(r, rest', tr') :=
       kni_create_from E cfg (idx + length pre) rest tr1 in
     (r, pre' ++ rest', tr')).
Proof.
  induction pre as [|p pre IH]; intros idx tr pre' tr1 rest H; simpl in *.
  - inversion H; subst. rewrite Nat.add_0_r.
    destruct (kni_create_from E cfg idx rest tr1) as [[r x] t]; reflexivity.
  - unfold Bind at 1 in H. unfold Bind at 1.
    destruct (kni_alloc E cfg idx p tr) as [[h|] tr2]; [|inversion H].
    unfold Bind at 1 in H. unfold Bind at 1.
    destruct (kni_create_from E cfg (S idx) pre tr2) as [[r1 ps1] tr3] eqn:Hrec.
    inversion H; subst; clear H.
    rewrite (IH _ _ _ _ rest Hrec). rewrite Nat.add_succ_r. simpl.
    destruct (kni_create_from E cfg (S (idx + length pre)) rest tr1)
      as [[r x] t]; reflexivity.
Qed.

Lemma kni_start_enabled (cfg : config) (tr : trace) :
  cfg_kni cfg = true ->
  kni_start NETIF_PORT_MAX E cfg tr =
  (let '(r, ps, tr') :=
     kni_create_from E cfg 0 (ports cfg)
                     (tr ++ [Ev_rte_kni_init NETIF_PORT_MAX]) in
   (r, set_ports cfg ps, tr')).
Proof.
  intros H. unfold kni_start, kni_create, rte_kni_init. rewrite H. run.
  destruct (kni_create_from E cfg 0 (ports cfg) _) as [[r ps] t]; reflexivity.
Qed.

Lemma firstn_skipn_app_length {A} (pre rest : list A) :
  firstn (length pre) (pre ++ rest) = pre /\
  skipn (length pre) (pre ++ rest) = rest.
Proof.
  split.
  - rewrite firstn_app, Nat.sub_diag, firstn_all. simpl. apply app_nil_r.
  - rewrite skipn_app, Nat.sub_diag, skipn_all. reflexivity.
Qed.

(** What [kni_start] leaves behind when the subsystem is enabled. *)
Lemma kni_start_inv (cfg : config) (tr : trace) (r : Z) (cfg' : config)
      (tr' : trace) :
  cfg_kni cfg = true ->
  kni_start NETIF_PORT_MAX E cfg tr = (r, cfg', tr') ->
  exists pre pre' rest,
    ports cfg = pre ++ rest /\ ports cfg' = pre' ++ rest /\
    attached_from cfg 0 pre pre' /\
    (r = 0 /\ rest = [] \/
     r = -1 /\ exists p rest0 tr1,
       rest = p :: rest0 /\
       kni_alloc E cfg (length pre) p tr1 = (None, tr')).
Proof.
  intros Hen H. rewrite (kni_start_enabled _ _ Hen) in H.
  destruct (kni_create_from E cfg 0 (ports cfg) _) as [[r0 ps] t] eqn:Hc.
  inversion H; subst; clear H.
  destruct (kni_create_from_inv _ _ _ _ _ _ _ Hc)
    as (pre & pre' & rest & H1 & H2 & Hatt & Hres).
  exists pre, pre', rest. repeat split; auto.
  destruct Hres as [?|[-> (p & rest0 & tr1 & -> & _ & Hq)]]; [left; auto|].
  right; split; auto. exists p, rest0, tr1. auto.
Qed.

(** ** Names *)

(** The name is the first [RTE_KNI_NAMESIZE - 1] characters of the prefix
    followed by the offset in decimal. *)
Lemma kni_set_name_fits (cfg : config) (idx : nat) :
  (String.length (kni_ifname cfg ++ fmt_d idx)%string < RTE_KNI_NAMESIZE)%nat ->
  kni_set_name cfg idx = (kni_ifname cfg ++ fmt_d idx)%string.
Proof.
  intros H. unfold kni_set_name, snprintf_s_d. apply substring_0_all.
  unfold RTE_KNI_NAMESIZE in *. simpl. lia.
Qed.

(** C1, amended.  When the subsystem is enabled and prefix plus ordinal stays
    below RTE_KNI_NAMESIZE characters for every position of the array,
    [kni_start] attaches handles to the first [k] ports ([k] being the whole
    array when it returns 0) and their names are, in array order, the prefix
    followed by 0, 1, ..., k-1 in decimal; the ports after them are left as
    they were and no hardware id changes.  The name at a position is the
    same in every configuration with the same prefix, whatever the ids of
    its ports. *)
Theorem kni_start_names (cfg : config) (tr : trace) (r : Z) (cfg' : config)
        (tr' : trace) :
  cfg_kni cfg = true ->
  (forall i, (i < length (ports cfg))%nat ->
     (String.length (kni_ifname cfg ++ fmt_d i)%string < RTE_KNI_NAMESIZE)%nat) ->
  kni_start NETIF_PORT_MAX E cfg tr = (r, cfg', tr') ->
  (exists k, (k <= length (ports cfg))%nat /\
     (r = 0 -> k = length (ports cfg)) /\
     map handle_name (firstn k (ports cfg')) =
       map (fun i => Some (kni_ifname cfg ++ fmt_d i)%string) (seq 0 k) /\
     skipn k (ports cfg') = skipn k (ports cfg) /\
     map id (ports cfg') = map id (ports cfg)) /\
  (forall cfg2 i, kni_ifname cfg2 = kni_ifname cfg ->
     kni_set_name cfg2 i = kni_set_name cfg i).
Proof.
  intros Hen Hfit H. split.
  - destruct (kni_start_inv _ _ _ _ _ Hen H)
      as (pre & pre' & rest & H1 & H2 & Hatt & Hres).
    pose proof (attached_from_length _ _ _ _ Hatt) as Hlen.
    exists (length pre). rewrite H1, H2. repeat split.
    + rewrite length_app. lia.
    + intros ->. destruct Hres as [[_ ->]|[Hr _]]; [|discriminate].
      now rewrite app_nil_r.
    + rewrite <- Hlen at 1.
      rewrite (proj1 (firstn_skipn_app_length pre' rest)).
      rewrite (attached_from_names _ _ _ _ Hatt).
      apply map_ext_in. intros i Hi. apply in_seq in Hi.
      rewrite kni_set_name_fits; [reflexivity|].
      apply Hfit. rewrite H1, length_app. lia.
    + rewrite <- Hlen at 1.
      rewrite (proj2 (firstn_skipn_app_length pre' rest)).
      now rewrite (proj2 (firstn_skipn_app_length pre rest)).
    + rewrite !map_app. now rewrite (attached_from_ids _ _ _ _ Hatt).
  - intros cfg2 i Hp. unfold kni_set_name. now rewrite Hp.
Qed.

(** When both queries that can fail succeed and the library accepts the
    configuration under the name [kni_set_name] produced, [kni_alloc]
    returns a handle under that name; the length of prefix plus ordinal
    plays no part. *)
Lemma kni_alloc_accepts (cfg : config) (idx : nat) (p : netif_port)
      (tr : trace) :
  let pid := uint16_t (id p) in
  let tr1 := tr ++ [Ev_rte_eth_dev_info_get pid 0] in
  let tr2 :=
    tr1 ++ [Ev_rte_eth_dev_get_mtu pid (fst (env_dev_get_mtu E tr1 pid))] in
  let tr3 := tr2 ++ [Ev_rte_eth_macaddr_get pid 0] in
  fst (env_dev_info_get E tr pid) = 0 ->
  fst (env_macaddr_get E tr2 pid) = 0 ->
  (forall conf, conf_name conf = kni_set_name cfg idx ->
                env_kni_alloc E tr3 (mbuf_pool p 0) conf = true) ->
  exists h,
    kni_alloc E cfg idx p tr =
      (Some h, tr3 ++ [Ev_rte_kni_alloc (mbuf_pool p 0) (kni_conf h) true]) /\
    conf_name (kni_conf h) = kni_set_name cfg idx.
Proof.
  intros pid tr1 tr2 tr3 Hb Hm Hacc. subst tr3 tr2 tr1 pid.
  unfold kni_alloc, kni_set_mtu, kni_set_mac, rte_eth_dev_info_get,
    rte_eth_dev_get_mtu, rte_eth_macaddr_get, rte_kni_alloc. run.
  destruct (env_dev_info_get E tr _) as [r1 di]; simpl in *. subst r1. simpl.
  destruct (env_dev_get_mtu E _ _) as [rm v]; simpl in *.
  destruct (env_macaddr_get E _ _) as [r3 mac]; simpl in *. subst r3. simpl.
  rewrite Hacc by reflexivity.
  eexists (mk_kni _ _). split; reflexivity.
Qed.

(** The calls [rte_kni_alloc] receives from [kni_alloc] all carry the name
    [kni_set_name] produced. *)
Lemma kni_alloc_passes_name (cfg : config) (idx : nat) (p : netif_port)
      (res : option rte_kni) (tr tr' : trace) :
  kni_alloc E cfg idx p tr = (res, tr') ->
  exists d, tr' = tr ++ d /\
    forall pool conf ok,
      In (Ev_rte_kni_alloc pool conf ok) d ->
      conf_name conf = kni_set_name cfg idx.
Proof.
  unfold kni_alloc, kni_set_mtu, kni_set_mac, rte_eth_dev_info_get,
    rte_eth_dev_get_mtu, rte_eth_macaddr_get, rte_kni_alloc. run.
  destruct (env_dev_info_get E tr _) as [r1 di]; simpl.
  destruct (r1 =? 0); simpl.
  - destruct (env_dev_get_mtu E _ _) as [rm v]; simpl.
    destruct (env_macaddr_get E _ _) as [r3 mac]; simpl.
    destruct (r3 =? 0); simpl.
    + destruct (env_kni_alloc E _ _ _); intros H; inversion H; subst; clear H;
        repeat rewrite <- app_assoc; simpl;
        (eexists; split; [reflexivity|]);
        intros pool conf ok Hin; simpl in Hin;
        repeat (destruct Hin as [Hin|Hin]; try discriminate);
        try contradiction; inversion Hin; subst; reflexivity.
    + intros H; inversion H; subst; clear H;
        repeat rewrite <- app_assoc; simpl.
      eexists; split; [reflexivity|].
      intros pool conf ok Hin; simpl in Hin;
        repeat (destruct Hin as [Hin|Hin]; try discriminate); contradiction.
  - intros H; inversion H; subst; clear H.
    eexists; split; [reflexivity|].
    intros pool conf ok Hin; simpl in Hin;
      repeat (destruct Hin as [Hin|Hin]; try discriminate); contradiction.
Qed.

(** On a host whose bounds query, MAC query and handle construction never
    fail, the loop of [kni_create] gets through any array. *)
Lemma kni_create_from_all_ok (cfg : config) :
  (forall tr pid, fst (env_dev_info_get E tr pid) = 0) ->
  (forall tr pid, fst (env_macaddr_get E tr pid) = 0) ->
  (forall tr pool conf, env_kni_alloc E tr pool conf = true) ->
  forall ps idx tr,
    exists ps' tr', kni_create_from E cfg idx ps tr = (0, ps', tr').
Proof.
  intros Hb Hm Ha. induction ps as [|p ps IH]; intros idx tr; simpl.
  - eexists _, _. reflexivity.
  - destruct (kni_alloc_accepts cfg idx p tr (Hb _ _) (Hm _ _)
                (fun conf _ => Ha _ _ conf)) as (h & Heq & _).
    unfold Bind at 1. rewrite Heq. unfold Bind at 1.
    match goal with
    | |- context [kni_create_from E cfg (S idx) ps ?t] =>
        destruct (IH (S idx) t) as (ps' & tr' & Hrec)
    end.
    rewrite Hrec. eexists _, _. reflexivity.
Qed.

(** C7, amended.  [kni_set_name] never fails: it keeps the first
    [RTE_KNI_NAMESIZE - 1] characters of prefix plus ordinal.  A name below
    RTE_KNI_NAMESIZE characters is produced unchanged; a longer one is cut
    to exactly [RTE_KNI_NAMESIZE - 1] characters, a proper prefix of it; and
    every handle that [kni_alloc] obtains carries the name so produced.
    Creation does not fail on account of the length: [kni_alloc] returns
    NULL only when the bounds query, the MAC query or [rte_kni_alloc]
    failed, every [rte_kni_alloc] it issues carries the name so produced,
    and when the two queries succeed and the library accepts a
    configuration under that name it returns a handle under that name.
    On a host where those three calls never fail, [kni_start] (subsystem
    enabled) returns 0 for any prefix and any array, every port then
    holding a handle named by [kni_set_name] at its position. *)
Theorem kni_set_name_truncates (cfg : config) (idx : nat) :
  let full := (kni_ifname cfg ++ fmt_d idx)%string in
  kni_set_name cfg idx = substring 0 (RTE_KNI_NAMESIZE - 1) full /\
  (String.length (kni_set_name cfg idx) < RTE_KNI_NAMESIZE)%nat /\
  ((String.length full < RTE_KNI_NAMESIZE)%nat ->
   kni_set_name cfg idx = full) /\
  ((RTE_KNI_NAMESIZE <= String.length full)%nat ->
   String.length (kni_set_name cfg idx) = (RTE_KNI_NAMESIZE - 1)%nat /\
   kni_set_name cfg idx <> full /\
   exists rest, rest <> EmptyString /\
                full = (kni_set_name cfg idx ++ rest)%string) /\
  (forall p h tr tr',
     kni_alloc E cfg idx p tr = (Some h, tr') ->
     conf_name (kni_conf h) = kni_set_name cfg idx) /\
  (forall p res tr tr',
     kni_alloc E cfg idx p tr = (res, tr') ->
     exists d, tr' = tr ++ d /\
       (res = None <-> existsb failed_step d = true) /\
       (forall pool conf ok,
          In (Ev_rte_kni_alloc pool conf ok) d ->
          conf_name conf = kni_set_name cfg idx)) /\
  (forall p tr,
     let pid := uint16_t (id p) in
     let tr1 := tr ++ [Ev_rte_eth_dev_info_get pid 0] in
     let tr2 :=
       tr1 ++ [Ev_rte_eth_dev_get_mtu pid (fst (env_dev_get_mtu E tr1 pid))] in
     let tr3 := tr2 ++ [Ev_rte_eth_macaddr_get pid 0] in
     fst (env_dev_info_get E tr pid) = 0 ->
     fst (env_macaddr_get E tr2 pid) = 0 ->
     (forall conf, conf_name conf = kni_set_name cfg idx ->
                   env_kni_alloc E tr3 (mbuf_pool p 0) conf = true) ->
     exists h,
       kni_alloc E cfg idx p tr =
         (Some h,
          tr3 ++ [Ev_rte_kni_alloc (mbuf_pool p 0) (kni_conf h) true]) /\
       conf_name (kni_conf h) = kni_set_name cfg idx) /\
  ((forall tr pid, fst (env_dev_info_get E tr pid) = 0) ->
   (forall tr pid, fst (env_macaddr_get E tr pid) = 0) ->
   (forall tr pool conf, env_kni_alloc E tr pool conf = true) ->
   cfg_kni cfg = true ->
   forall tr, exists cfg' tr',
     kni_start NETIF_PORT_MAX E cfg tr = (0, cfg', tr') /\
     map handle_name (ports cfg') =
       map (fun i => Some (kni_set_name cfg i))
           (seq 0 (length (ports cfg)))).
Proof.
  intros full.
  assert (Hlen : String.length (kni_set_name cfg idx) =
                 Nat.min (RTE_KNI_NAMESIZE - 1) (String.length full)).
  { unfold kni_set_name, snprintf_s_d. apply substring_0_length. }
  split; [reflexivity|].
  split; [|split; [|split; [|split; [|split; [|split]]]]].
  - rewrite Hlen. unfold RTE_KNI_NAMESIZE. lia.
  - apply kni_set_name_fits.
  - intros Hlong. split; [|split].
    + rewrite Hlen. unfold RTE_KNI_NAMESIZE in *. lia.
    + intros Heq. rewrite Heq in Hlen. unfold RTE_KNI_NAMESIZE in *. lia.
    + destruct (substring_0_split full (RTE_KNI_NAMESIZE - 1)) as [rest [H1 H2]].
      exists rest. split; [|exact H1].
      intros ->. unfold RTE_KNI_NAMESIZE in *.
      change (String.length EmptyString) with 0%nat in H2. lia.
  - intros p h tr tr' H. now destruct (kni_alloc_some _ _ _ _ _ _ H).
  - intros p res tr tr' H.
    destruct (kni_alloc_inv _ _ _ _ _ _ H) as (d & Hd & Hiff & _).
    destruct (kni_alloc_passes_name _ _ _ _ _ _ H) as (d' & Hd' & Hname).
    assert (d' = d) as -> by (rewrite Hd in Hd'; now apply app_inv_head in Hd').
    exists d. auto.
  - intros p tr. apply kni_alloc_accepts.
  - intros Hb Hm Ha Hen tr.
    destruct (kni_create_from_all_ok cfg Hb Hm Ha (ports cfg) 0%nat
                (tr ++ [Ev_rte_kni_init NETIF_PORT_MAX])) as (ps' & tr' & Hc).
    exists (set_ports cfg ps'), tr'. split.
    + rewrite (kni_start_enabled _ _ Hen), Hc. reflexivity.
    + destruct (kni_create_from_inv _ _ _ _ _ _ _ Hc)
        as (pre & pre' & rest & H1 & H2 & Hatt & Hres).
      destruct Hres as [[_ ->]|[Hr _]]; [|discriminate].
      rewrite app_nil_r in H1, H2. subst. simpl.
      apply (attached_from_names _ _ _ _ Hatt).
Qed.

(** ** Failure of start *)

(** C5.  With the subsystem enabled: [kni_alloc] returns NULL exactly when
    the MTU-bounds query, the MAC query or the construction of the handle
    failed, so a failed current-MTU query alone does not make it fail, and
    the handle then keeps 0 as its current MTU.  When the loop got through
    the ports before [p] and [kni_alloc] returns NULL for [p], [kni_start]
    returns -1 right after that call, with [p] and the ports behind it as
    they were; and every -1 of [kni_start] arises that way. *)
Theorem kni_start_fails_at_first_failure (cfg : config) (tr : trace) :
  cfg_kni cfg = true ->
  (forall idx p tr0 res tr1,
     kni_alloc E cfg idx p tr0 = (res, tr1) ->
     exists d, tr1 = tr0 ++ d /\
       (res = None <-> existsb failed_step d = true) /\
       (forall h rm, res = Some h ->
          In (Ev_rte_eth_dev_get_mtu (uint16_t (id p)) rm) d -> rm <> 0 ->
          conf_mtu (kni_conf h) = 0)) /\
  (forall pre p post pre' tr1 tr2,
     ports cfg = pre ++ p :: post ->
     kni_create_from E cfg 0 pre (tr ++ [Ev_rte_kni_init NETIF_PORT_MAX]) =
       (0, pre', tr1) ->
     kni_alloc E cfg (length pre) p tr1 = (None, tr2) ->
     kni_start NETIF_PORT_MAX E cfg tr =
       (-1, set_ports cfg (pre' ++ p :: post), tr2)) /\
  (forall cfg' tr',
     kni_start NETIF_PORT_MAX E cfg tr = (-1, cfg', tr') ->
     exists pre p post pre' tr1,
       ports cfg = pre ++ p :: post /\
       ports cfg' = pre' ++ p :: post /\
       attached_from cfg 0 pre pre' /\
       kni_alloc E cfg (length pre) p tr1 = (None, tr')).
Proof.
  intros Hen. split; [|split].
  - intros idx p tr0 res tr1. apply kni_alloc_inv.
  - intros pre p post pre' tr1 tr2 Hp Hpre Hfail.
    rewrite (kni_start_enabled _ _ Hen), Hp.
    rewrite (kni_create_from_app _ _ _ _ _ _ (p :: post) Hpre). simpl.
    unfold Bind at 1. rewrite Hfail. reflexivity.
  - intros cfg' tr' H.
    destruct (kni_start_inv _ _ _ _ _ Hen H)
      as (pre & pre' & rest & H1 & H2 & Hatt & Hres).
    destruct Hres as [[Hr _]|[_ (p & rest0 & tr1 & -> & Hq)]]; [discriminate|].
    exists pre, p, rest0, pre', tr1. auto.
Qed.

(** ** Teardown *)

Lemma set_port_kni_None (p : netif_port) :
  port_kni p = None -> set_port_kni p None = p.
Proof. destruct p; simpl; intros ->; reflexivity. Qed.

(** The loop of [kni_free] detaches every port, releases the attached
    handles once each in array order, and prints one line per release that
    failed. *)
Lemma kni_free_from_spec (ps : list netif_port) :
  forall tr, exists d,
    kni_free_from E ps tr = (map (fun p => set_port_kni p None) ps, tr ++ d) /\
    map fst (releases d) = handles ps /\
    printed d =
      map (fun _ => ("failed to free kni" ++ newline)%string)
          (filter (fun x => negb (snd x =? 0)) (releases d)) /\
    Forall (fun e => match e with
                     | Ev_rte_kni_release _ _ | Ev_printf _ => True
                     | _ => False
                     end) d.
Proof.
  induction ps as [|p ps IH]; intros tr; simpl.
  - exists []. rewrite app_nil_r. repeat split; auto.
  - destruct (port_kni p) as [k|] eqn:Hk.
    + unfold Bind at 1. unfold rte_kni_release, call.
      set (r := env_kni_release E tr k).
      destruct (Z.eqb_spec r 0) as [Hr|Hr]; simpl.
      * unfold Bind at 1. unfold Ret at 1. unfold Bind at 1.
        destruct (IH (tr ++ [Ev_rte_kni_release k r]))
          as (d & Heq & Hrel & Hpr & Hall).
        rewrite Heq. exists (Ev_rte_kni_release k r :: d).
        rewrite <- app_assoc. simpl. repeat split; auto.
        { now rewrite Hrel. }
        destruct (Z.eqb_spec r 0); [simpl; exact Hpr|contradiction].
      * unfold Bind at 1. unfold printf, emit. unfold Bind at 1.
        match goal with
        | |- context [kni_free_from E ps ?t] =>
            destruct (IH t) as (d & Heq & Hrel & Hpr & Hall)
        end.
        rewrite Heq.
        exists (Ev_rte_kni_release k r ::
                Ev_printf ("failed to free kni" ++ newline)%string :: d).
        repeat rewrite <- app_assoc. simpl. repeat split; auto.
        { now rewrite Hrel. }
        destruct (Z.eqb_spec r 0); [contradiction|simpl]. now rewrite Hpr.
    + unfold Bind at 1. destruct (IH tr) as (d & Heq & Hrel & Hpr & Hall).
      rewrite Heq. exists d. rewrite (set_port_kni_None _ Hk).
      repeat split; auto.
Qed.

(** The ports after [kni_stop]: all detached when the subsystem is enabled,
    untouched otherwise. *)
Lemma kni_stop_ports (cfg : config) (tr : trace) :
  ports (fst (kni_stop E cfg tr)) =
  if cfg_kni cfg then map (fun p => set_port_kni p None) (ports cfg)
  else ports cfg.
Proof.
  unfold kni_stop, kni_free. destruct (cfg_kni cfg); [|reflexivity].
  unfold Bind. destruct (kni_free_from_spec (ports cfg) tr) as (d & Heq & _).
  rewrite Heq. reflexivity.
Qed.

(** C8.  With the subsystem enabled, [kni_stop] leaves every port of the
    array detached, changing nothing else of the configuration; in between
    it called [rte_kni_release] once for each handle that was attached, in
    array order and whatever the earlier releases returned, printed one
    line for each release that failed, and did nothing else. *)
Theorem kni_stop_detaches_every_port (cfg : config) (tr : trace) :
  cfg_kni cfg = true ->
  exists d,
    kni_stop E cfg tr =
      (set_ports cfg (map (fun p => set_port_kni p None) (ports cfg)), tr ++ d) /\
    (forall p', In p' (ports (fst (kni_stop E cfg tr))) -> port_kni p' = None) /\
    map fst (releases d) = handles (ports cfg) /\
    printed d =
      map (fun _ => ("failed to free kni" ++ newline)%string)
          (filter (fun x => negb (snd x =? 0)) (releases d)) /\
    Forall (fun e => match e with
                     | Ev_rte_kni_release _ _ | Ev_printf _ => True
                     | _ => False
                     end) d.
Proof.
  intros Hen.
  destruct (kni_free_from_spec (ports cfg) tr) as (d & Heq & Hrel & Hpr & Hall).
  assert (Hstop : kni_stop E cfg tr =
    (set_ports cfg (map (fun p => set_port_kni p None) (ports cfg)), tr ++ d)).
  { unfold kni_stop, kni_free. rewrite Hen. unfold Bind. rewrite Heq.
    reflexivity. }
  exists d. rewrite Hstop. simpl. repeat split; auto.
  intros p' Hin. apply in_map_iff in Hin. destruct Hin as (p & <- & _).
  reflexivity.
Qed.

(** ** Group identifiers *)

(** C6.  With the subsystem enabled and hardware ids that are port ids of
    the ethdev layer (16 bits), [kni_start] attaches handles to the first
    [k] ports ([k] being the whole array when it returns 0); the group id of
    each of these handles is the id of its port, while its name is numbered
    by the position in the array.  Afterwards a port either keeps the very
    handle it has or, through [kni_stop], has none: no function of kni.c
    puts another group id on an attached handle. *)
Theorem kni_start_group_ids (cfg : config) (tr : trace) (r : Z)
        (cfg' : config) (tr' : trace) :
  cfg_kni cfg = true ->
  (forall p, In p (ports cfg) -> 0 <= id p < 65536) ->
  kni_start NETIF_PORT_MAX E cfg tr = (r, cfg', tr') ->
  (exists k, (k <= length (ports cfg))%nat /\
     (r = 0 -> k = length (ports cfg)) /\
     map handle_group_id (firstn k (ports cfg')) =
       map (fun p => Some (id p)) (firstn k (ports cfg)) /\
     map handle_name (firstn k (ports cfg')) =
       map (fun i => Some (kni_set_name cfg i)) (seq 0 k) /\
     skipn k (ports cfg') = skipn k (ports cfg) /\
     map id (ports cfg') = map id (ports cfg)) /\
  (forall tr2,
     Forall2 (fun p p' => id p' = id p /\
                          (port_kni p' = None \/ port_kni p' = port_kni p))
             (ports cfg') (ports (fst (kni_stop E cfg' tr2)))).
Proof.
  intros Hen Hid H. split.
  - destruct (kni_start_inv _ _ _ _ _ Hen H)
      as (pre & pre' & rest & H1 & H2 & Hatt & Hres).
    pose proof (attached_from_length _ _ _ _ Hatt) as Hlen.
    exists (length pre). rewrite H1, H2. repeat split.
    + rewrite length_app. lia.
    + intros ->. destruct Hres as [[_ ->]|[Hr _]]; [|discriminate].
      now rewrite app_nil_r.
    + rewrite <- Hlen at 1.
      rewrite (proj1 (firstn_skipn_app_length pre' rest)).
      rewrite (proj1 (firstn_skipn_app_length pre rest)).
      rewrite (attached_from_group_ids _ _ _ _ Hatt).
      apply map_ext_in. intros p Hp. unfold uint16_t.
      rewrite Z.mod_small; [reflexivity|].
      apply Hid. rewrite H1. apply in_or_app. now left.
    + rewrite <- Hlen at 1.
      rewrite (proj1 (firstn_skipn_app_length pre' rest)).
      apply (attached_from_names _ _ _ _ Hatt).
    + rewrite <- Hlen at 1.
      rewrite (proj2 (firstn_skipn_app_length pre' rest)).
      now rewrite (proj2 (firstn_skipn_app_length pre rest)).
    + rewrite !map_app. now rewrite (attached_from_ids _ _ _ _ Hatt).
  - intros tr2. rewrite kni_stop_ports.
    destruct (cfg_kni cfg').
    + induction (ports cfg') as [|p ps IH]; simpl; constructor; auto.
    + induction (ports cfg') as [|p ps IH]; simpl; constructor; auto.
Qed.

(** ** Link-up *)

(** The four ways through [kni_set_link_up] for a port with a handle, and
    the one for a port without. *)
Lemma kni_set_link_up_run (cfg : config) (idx : nat) (p : netif_port)
      (tr : trace) :
  kni_set_link_up E cfg idx p tr =
  match port_kni p with
  | None => (0, tr)
  | Some _ =>
      let fd := env_socket E tr in
      let name := kni_set_name cfg idx in
      let g := env_ioctl_get E (tr ++ [Ev_socket fd]) fd name in
      let flags := Z.lor (snd g) IFF_UP in
      let s := env_ioctl_set E (tr ++ [Ev_socket fd;
                                       Ev_ioctl_SIOCGIFFLAGS fd name (fst g)])
                             fd name flags in
      if fd <? 0 then (-1, tr ++ [Ev_socket fd])
      else if fst g <? 0 then
        (-1, tr ++ [Ev_socket fd; Ev_ioctl_SIOCGIFFLAGS fd name (fst g);
                    Ev_printf ("kni get flags error" ++ newline)%string;
                    Ev_close fd])
      else if s <? 0 then
        (-1, tr ++ [Ev_socket fd; Ev_ioctl_SIOCGIFFLAGS fd name (fst g);
                    Ev_ioctl_SIOCSIFFLAGS fd name flags s;
                    Ev_printf ("kni set flags error" ++ newline)%string;
                    Ev_close fd])
      else
        (0, tr ++ [Ev_socket fd; Ev_ioctl_SIOCGIFFLAGS fd name (fst g);
                   Ev_ioctl_SIOCSIFFLAGS fd name flags s; Ev_close fd])
  end.
Proof.
  unfold kni_set_link_up. destruct (port_kni p); [|reflexivity].
  unfold socket, ioctl_SIOCGIFFLAGS, ioctl_SIOCSIFFLAGS, printf, close.
  unfold Bind, call, emit, Ret. cbv zeta.
  destruct (env_socket E tr <? 0); [reflexivity|].
  destruct (env_ioctl_get E _ _ _) as [rg fl]. cbn [fst snd].
  destruct (rg <? 0).
  - repeat rewrite <- app_assoc. reflexivity.
  - repeat rewrite <- app_assoc. cbn [app].
    destruct (env_ioctl_set E _ _ _ _ <? 0);
      repeat rewrite <- app_assoc; reflexivity.
Qed.

(** One step of link-up: -1 exactly when one of its calls failed; on
    success the calls are socket, get flags, set flags with IFF_UP or-ed in,
    close. *)
Lemma kni_set_link_up_inv (cfg : config) (idx : nat) (p : netif_port)
      (k : rte_kni) (tr : trace) (r : Z) (tr' : trace) :
  port_kni p = Some k ->
  kni_set_link_up E cfg idx p tr = (r, tr') ->
  exists d, tr' = tr ++ d /\
    (r = 0 \/ r = -1) /\
    (r = -1 <-> existsb failed_link_step d = true) /\
    (r = 0 ->
     exists fd rg flags rs,
       0 <= fd /\ 0 <= rg /\ 0 <= rs /\
       (rg, flags) =
         env_ioctl_get E (tr ++ [Ev_socket fd]) fd (kni_set_name cfg idx) /\
       d = [Ev_socket fd;
            Ev_ioctl_SIOCGIFFLAGS fd (kni_set_name cfg idx) rg;
            Ev_ioctl_SIOCSIFFLAGS fd (kni_set_name cfg idx)
                                  (Z.lor flags IFF_UP) rs;
            Ev_close fd]).
Proof.
  intros Hk. rewrite kni_set_link_up_run, Hk. cbv zeta.
  destruct (Z.ltb_spec (env_socket E tr) 0) as [Hfd|Hfd].
  - intros H; inversion H; subst; clear H. eexists; split; [reflexivity|].
    simpl. destruct (Z.ltb_spec (env_socket E tr) 0); [|lia].
    repeat split; auto; discriminate.
  - destruct (env_ioctl_get E _ _ _) as [rg fl] eqn:Hg. cbn [fst snd].
    destruct (Z.ltb_spec rg 0) as [Hrg|Hrg].
    + intros H; inversion H; subst; clear H. eexists; split; [reflexivity|].
      simpl. destruct (Z.ltb_spec (env_socket E tr) 0); [lia|].
      destruct (Z.ltb_spec rg 0); [|lia]. simpl.
      repeat split; auto; discriminate.
    + destruct (Z.ltb_spec (env_ioctl_set E
                  (tr ++ [Ev_socket (env_socket E tr);
                          Ev_ioctl_SIOCGIFFLAGS (env_socket E tr)
                            (kni_set_name cfg idx) rg])
                  (env_socket E tr) (kni_set_name cfg idx)
                  (Z.lor fl IFF_UP)) 0) as [Hs|Hs].
      * intros H; inversion H; subst; clear H. eexists; split; [reflexivity|].
        simpl. destruct (Z.ltb_spec (env_socket E tr) 0); [lia|].
        destruct (Z.ltb_spec rg 0); [lia|]. simpl.
        match goal with |- context [?x <? 0] =>
          destruct (Z.ltb_spec x 0); [|lia] end.
        simpl. repeat split; auto; discriminate.
      * intros H; inversion H; subst; clear H. eexists; split; [reflexivity|].
        simpl. destruct (Z.ltb_spec (env_socket E tr) 0); [lia|].
        destruct (Z.ltb_spec rg 0); [lia|]. simpl.
        match goal with |- context [?x <? 0] =>
          destruct (Z.ltb_spec x 0); [lia|] end.
        simpl. repeat split; auto; try discriminate.
        intros _. eexists _, rg, fl, _. rewrite Hg.
        repeat split; auto.
Qed.

(** Every descriptor a step of link-up opens is closed by that step, as
    its last call, and no other is. *)
Lemma kni_set_link_up_balanced (cfg : config) (idx : nat) (p : netif_port)
      (tr : trace) (r : Z) (tr' : trace) :
  kni_set_link_up E cfg idx p tr = (r, tr') ->
  exists d, tr' = tr ++ d /\
    closed_fds d = open_fds d /\
    (length (open_fds d) <= 1)%nat /\
    (forall fd, In fd (open_fds d) ->
       exists mid, d = Ev_socket fd :: mid ++ [Ev_close fd] /\
                   closed_fds mid = [] /\ open_fds mid = []).
Proof.
  rewrite kni_set_link_up_run. destruct (port_kni p); cbv zeta.
  - destruct (Z.ltb_spec (env_socket E tr) 0) as [Hfd|Hfd].
    + intros H; inversion H; subst; clear H. eexists; split; [reflexivity|].
      simpl. destruct (Z.ltb_spec (env_socket E tr) 0); [|lia]. simpl.
      repeat split; auto. intros fd [].
    + destruct (fst (env_ioctl_get E _ _ _) <? 0);
        [|destruct (env_ioctl_set E _ _ _ _ <? 0)];
        intros H; inversion H; subst; clear H;
        (eexists; split; [reflexivity|]); simpl;
        (destruct (Z.ltb_spec (env_socket E tr) 0); [lia|]); simpl;
        (repeat split; auto);
        intros fd [<-|[]].
      * eexists [_; _]. simpl. auto.
      * eexists [_; _; _]. simpl. auto.
      * eexists [_; _]. simpl. auto.
  - intros H; inversion H; subst; clear H. exists []. rewrite app_nil_r.
    simpl. repeat split; auto. intros fd [].
Qed.

Lemma open_fds_app (a b : trace) : open_fds (a ++ b) = open_fds a ++ open_fds b.
Proof. apply flat_map_app. Qed.

Lemma closed_fds_app (a b : trace) :
  closed_fds (a ++ b) = closed_fds a ++ closed_fds b.
Proof. apply flat_map_app. Qed.

Lemma kni_link_up_from_balanced (cfg : config) (ps : list netif_port) :
  forall idx tr r tr',
    kni_link_up_from E cfg idx ps tr = (r, tr') ->
    exists d, tr' = tr ++ d /\ closed_fds d = open_fds d.
Proof.
  induction ps as [|p ps IH]; intros idx tr r tr' H; simpl in H.
  - inversion H; subst. exists []. now rewrite app_nil_r.
  - unfold Bind at 1 in H.
    destruct (kni_set_link_up E cfg idx p tr) as [r1 tr1] eqn:Hstep.
    destruct (kni_set_link_up_balanced _ _ _ _ _ _ Hstep) as (d1 & -> & Hb & _).
    destruct (r1 <? 0).
    + inversion H; subst. exists d1. auto.
    + destruct (IH _ _ _ _ H) as (d2 & -> & Hb2).
      exists (d1 ++ d2). rewrite app_assoc, open_fds_app, closed_fds_app.
      split; congruence.
Qed.

Lemma kni_link_up_from_app (cfg : config) (pre : list netif_port) :
  forall idx tr tr1 rest,
    kni_link_up_from E cfg idx pre tr = (0, tr1) ->
    kni_link_up_from E cfg idx (pre ++ rest) tr =
    kni_link_up_from E cfg (idx + length pre) rest tr1.
Proof.
  induction pre as [|p pre IH]; intros idx tr tr1 rest H; simpl in *.
  - inversion H; subst. now rewrite Nat.add_0_r.
  - unfold Bind at 1 in H. unfold Bind at 1.
    destruct (kni_set_link_up E cfg idx p tr) as [r1 tr2].
    destruct (r1 <? 0); [inversion H|].
    rewrite (IH _ _ _ rest H). now rewrite Nat.add_succ_r.
Qed.

Lemma kni_link_up_from_inv (cfg : config) (ps : list netif_port) :
  forall idx tr r tr',
    kni_link_up_from E cfg idx ps tr = (r, tr') ->
    r = 0 \/
    r = -1 /\ exists pre p post tr1 r1,
      ps = pre ++ p :: post /\
      kni_link_up_from E cfg idx pre tr = (0, tr1) /\
      kni_set_link_up E cfg (idx + length pre) p tr1 = (r1, tr') /\ r1 < 0.
Proof.
  induction ps as [|p ps IH]; intros idx tr r tr' H; simpl in H.
  - inversion H; auto.
  - unfold Bind at 1 in H.
    destruct (kni_set_link_up E cfg idx p tr) as [r1 tr1] eqn:Hstep.
    destruct (Z.ltb_spec r1 0) as [Hr|Hr].
    + inversion H; subst. right; split; auto.
      exists [], p, ps, tr, r1. simpl. rewrite Nat.add_0_r. auto.
    + destruct (IH _ _ _ _ H)
        as [?|[-> (pre & q & post & tr2 & r2 & -> & Hpre & Hq & Hr2)]]; auto.
      right; split; auto. exists (p :: pre), q, post, tr2, r2.
      repeat split; auto.
      * simpl. unfold Bind at 1. rewrite Hstep.
        destruct (Z.ltb_spec r1 0); [lia|]. exact Hpre.
      * simpl. now rewrite Nat.add_succ_r.
Qed.

(** C9.  [kni_link_up] walks the array in order.  A port without a handle
    costs nothing and counts as success.  For a port with a handle the step
    returns 0 or -1, -1 exactly when socket, the reading or the writing of
    the flags failed, and on success its calls are: socket, SIOCGIFFLAGS,
    SIOCSIFFLAGS with the flags read or-ed with IFF_UP, close.  When the
    steps of the ports before [p] returned 0 and the step of [p] is
    negative, [kni_link_up] returns -1 with the trace of that step as the
    last thing done, so no later port is processed; as long as the steps
    return 0 it continues with the next port; and every -1 arises at such a
    first failing port. *)
Theorem kni_link_up_in_order (cfg : config) (tr : trace) :
  (forall idx p tr0,
     port_kni p = None -> kni_set_link_up E cfg idx p tr0 = (0, tr0)) /\
  (forall idx p k tr0 r tr1,
     port_kni p = Some k ->
     kni_set_link_up E cfg idx p tr0 = (r, tr1) ->
     exists d, tr1 = tr0 ++ d /\
       (r = 0 \/ r = -1) /\
       (r = -1 <-> existsb failed_link_step d = true) /\
       (r = 0 ->
        exists fd rg flags rs,
          0 <= fd /\ 0 <= rg /\ 0 <= rs /\
          (rg, flags) =
            env_ioctl_get E (tr0 ++ [Ev_socket fd]) fd (kni_set_name cfg idx) /\
          d = [Ev_socket fd;
               Ev_ioctl_SIOCGIFFLAGS fd (kni_set_name cfg idx) rg;
               Ev_ioctl_SIOCSIFFLAGS fd (kni_set_name cfg idx)
                                     (Z.lor flags IFF_UP) rs;
               Ev_close fd])) /\
  (forall pre p post tr1 r tr2,
     ports cfg = pre ++ p :: post ->
     kni_link_up_from E cfg 0 pre tr = (0, tr1) ->
     kni_set_link_up E cfg (length pre) p tr1 = (r, tr2) ->
     r < 0 ->
     kni_link_up E cfg tr = (-1, tr2)) /\
  (forall pre post tr1,
     ports cfg = pre ++ post ->
     kni_link_up_from E cfg 0 pre tr = (0, tr1) ->
     kni_link_up E cfg tr = kni_link_up_from E cfg (length pre) post tr1) /\
  (forall r tr',
     kni_link_up E cfg tr = (r, tr') ->
     r = 0 \/
     r = -1 /\ exists pre p post tr1 r1,
       ports cfg = pre ++ p :: post /\
       kni_link_up_from E cfg 0 pre tr = (0, tr1) /\
       kni_set_link_up E cfg (length pre) p tr1 = (r1, tr') /\ r1 < 0).
Proof.
  split; [|split; [|split; [|split]]].
  - intros idx p tr0 Hk. now rewrite kni_set_link_up_run, Hk.
  - intros idx p k tr0 r tr1. apply kni_set_link_up_inv.
  - intros pre p post tr1 r tr2 Hp Hpre Hstep Hr.
    unfold kni_link_up. rewrite Hp.
    rewrite (kni_link_up_from_app _ _ _ _ _ (p :: post) Hpre). simpl.
    unfold Bind at 1. rewrite Hstep.
    destruct (Z.ltb_spec r 0); [reflexivity|lia].
  - intros pre post tr1 Hp Hpre. unfold kni_link_up. rewrite Hp.
    now rewrite (kni_link_up_from_app _ _ _ _ _ post Hpre).
  - intros r tr' H. unfold kni_link_up in H.
    exact (kni_link_up_from_inv _ _ _ _ _ _ H).
Qed.

(** C10.  In every run of [kni_set_link_up] the descriptors closed are
    exactly the descriptors opened, there is at most one, and when [socket]
    returned a descriptor [fd] the step is: socket, calls that neither open
    nor close anything, close of [fd].  Hence over a whole [kni_link_up],
    failed or not, the closed descriptors are the opened ones. *)
Theorem kni_set_link_up_closes_socket (cfg : config) (tr : trace) :
  (forall idx p tr0 r tr1,
     kni_set_link_up E cfg idx p tr0 = (r, tr1) ->
     exists d, tr1 = tr0 ++ d /\
       closed_fds d = open_fds d /\
       (length (open_fds d) <= 1)%nat /\
       (forall fd, In fd (open_fds d) ->
          exists mid, d = Ev_socket fd :: mid ++ [Ev_close fd] /\
                      closed_fds mid = [] /\ open_fds mid = [])) /\
  (forall r tr',
     kni_link_up E cfg tr = (r, tr') ->
     exists d, tr' = tr ++ d /\ closed_fds d = open_fds d).
Proof.
  split.
  - intros idx p tr0 r tr1. apply kni_set_link_up_balanced.
  - intros r tr'. unfold kni_link_up. apply kni_link_up_from_balanced.
Qed.

(** ** The packet bridge *)

Lemma kni_send_loop_run (mbufs : list rte_mbuf) :
  forall tr, kni_send_loop mbufs tr = (tt, tr ++ flat_map sent mbufs).
Proof.
  induction mbufs as [|m ms IH]; intros tr; simpl.
  - unfold Ret. now rewrite app_nil_r.
  - unfold work_space_tx_send, net_stats_kni_tx. run. rewrite IH.
    now repeat rewrite <- app_assoc.
Qed.

Lemma kni_send_run (ws : work_space) (tr : trace) :
  let kni := port_kni (ws_port ws) in
  let mbufs :=
    firstn NB_RXD
           (env_kni_rx_burst E (tr ++ [Ev_rte_kni_handle_request kni]) kni) in
  kni_send NB_RXD E ws tr =
  (tt, tr ++ Ev_rte_kni_handle_request kni
          :: Ev_rte_kni_rx_burst kni NB_RXD mbufs :: flat_map sent mbufs).
Proof.
  unfold kni_send, rte_kni_handle_request, rte_kni_rx_burst. run.
  rewrite kni_send_loop_run. now repeat rewrite <- app_assoc.
Qed.

Lemma kni_recv_run (ws : work_space) (m : rte_mbuf) (tr : trace) :
  kni_recv E ws m tr =
  (tt, tr ++ match port_kni (ws_port ws) with
             | None => [Ev_mbuf_free m; Ev_net_stats_drop]
             | Some k =>
                 let r := env_kni_tx_burst E tr k m in
                 Ev_rte_kni_tx_burst k m r ::
                 (if r =? 1 then [Ev_net_stats_kni_rx]
                  else [Ev_mbuf_free m; Ev_net_stats_drop])
             end).
Proof.
  unfold kni_recv, rte_kni_tx_burst, net_stats_kni_rx, mbuf_free2. run.
  destruct (port_kni (ws_port ws)) as [k|]; simpl.
  - destruct (env_kni_tx_burst E tr k m =? 1); simpl;
      now repeat rewrite <- app_assoc.
  - now repeat rewrite <- app_assoc.
Qed.

Lemma sent_observed (mbufs : list rte_mbuf) :
  tx_sent (flat_map sent mbufs) = mbufs /\
  kni_tx_count (flat_map sent mbufs) = length mbufs.
Proof.
  unfold kni_tx_count.
  induction mbufs as [|m ms [IH1 IH2]]; simpl; [auto|].
  split; congruence.
Qed.

(** C3.  Every [kni_send] does, in this order: one
    [rte_kni_handle_request]; one [rte_kni_rx_burst] of capacity NB_RXD,
    which yields at most NB_RXD buffers; then for each buffer drained, in
    order, one [work_space_tx_send] of it followed by one
    [net_stats_kni_tx]. *)
Theorem kni_send_services_then_drains (ws : work_space) (tr : trace) :
  exists mbufs,
    (length mbufs <= NB_RXD)%nat /\
    kni_send NB_RXD E ws tr =
      (tt, tr ++ Ev_rte_kni_handle_request (port_kni (ws_port ws))
              :: Ev_rte_kni_rx_burst (port_kni (ws_port ws)) NB_RXD mbufs
              :: flat_map sent mbufs) /\
    tx_sent (flat_map sent mbufs) = mbufs /\
    kni_tx_count (flat_map sent mbufs) = length mbufs.
Proof.
  eexists. split; [|split; [apply kni_send_run|apply sent_observed]].
  apply firstn_le_length.
Qed.

(** C4.  [kni_recv] on a port without a handle frees the buffer through
    [mbuf_free2] (release and drop count) and calls nothing of the kni
    library.  On a port with a handle it offers the buffer once to
    [rte_kni_tx_burst]: if that returns 1 it counts [net_stats_kni_rx] once
    and does not free the buffer; otherwise it frees the buffer through
    [mbuf_free2], once, and does not offer it again. *)
Theorem kni_recv_cases (ws : work_space) (m : rte_mbuf) (tr : trace) :
  (port_kni (ws_port ws) = None ->
   kni_recv E ws m tr = (tt, tr ++ [Ev_mbuf_free m; Ev_net_stats_drop])) /\
  (forall k,
     port_kni (ws_port ws) = Some k ->
     env_kni_tx_burst E tr k m = 1 ->
     kni_recv E ws m tr =
       (tt, tr ++ [Ev_rte_kni_tx_burst k m 1; Ev_net_stats_kni_rx])) /\
  (forall k,
     port_kni (ws_port ws) = Some k ->
     env_kni_tx_burst E tr k m <> 1 ->
     kni_recv E ws m tr =
       (tt, tr ++ [Ev_rte_kni_tx_burst k m (env_kni_tx_burst E tr k m);
                   Ev_mbuf_free m; Ev_net_stats_drop])).
Proof.
  rewrite kni_recv_run. split; [|split].
  - intros ->. reflexivity.
  - intros k -> Hr. cbv zeta. rewrite Hr. reflexivity.
  - intros k -> Hr. cbv zeta.
    destruct (Z.eqb_spec (env_kni_tx_burst E tr k m) 1); [contradiction|].
    reflexivity.
Qed.

(** C2, the code at a port without a handle.  [kni_recv] only frees the
    buffer.  [kni_send] has no test of the handle: it calls
    [rte_kni_handle_request] and [rte_kni_rx_burst] with NULL, and sends
    whatever that drain yields. *)
Theorem kni_send_null_handle_drains (ws : work_space) (m : rte_mbuf)
        (tr : trace) :
  port_kni (ws_port ws) = None ->
  kni_recv E ws m tr = (tt, tr ++ [Ev_mbuf_free m; Ev_net_stats_drop]) /\
  exists mbufs,
    kni_send NB_RXD E ws tr =
      (tt, tr ++ Ev_rte_kni_handle_request None
              :: Ev_rte_kni_rx_burst None NB_RXD mbufs
              :: flat_map sent mbufs) /\
    existsb is_kni_call
            (Ev_rte_kni_handle_request None
             :: Ev_rte_kni_rx_burst None NB_RXD mbufs
             :: flat_map sent mbufs) = true.
Proof.
  intros Hk. split.
  - rewrite kni_recv_run, Hk. reflexivity.
  - eexists. rewrite kni_send_run, Hk. cbv zeta. split; reflexivity.
Qed.

End Properties.

(** ** The statements at concrete hosts and configurations *)

Lemma cfg_5_2_fits (i : nat) :
  (i < length (ports cfg_5_2))%nat ->
  (String.length (kni_ifname cfg_5_2 ++ fmt_d i)%string < RTE_KNI_NAMESIZE)%nat.
Proof.
  destruct i as [|[|i]]; simpl; intros Hi; try lia;
    unfold RTE_KNI_NAMESIZE; vm_compute; lia.
Defined.

Lemma cfg_5_2_ids (p : netif_port) :
  In p (ports cfg_5_2) -> 0 <= id p < 65536.
Proof. intros [<-|[<-|[]]]; simpl; lia. Defined.

(** Ids 5 and 2 under prefix "kni": the names are kni0 and kni1. *)
Lemma kni_start_names_witness :
  cfg_kni cfg_5_2 = true /\
  map handle_name (ports (snd (fst (kni_start 4 env_ok cfg_5_2 [])))) =
    [Some "kni0"; Some "kni1"].
Proof.
  split; [reflexivity|].
  destruct (kni_start_names 4 env_ok cfg_5_2 [] 0 cfg_5_2_started
              (snd (kni_start 4 env_ok cfg_5_2 []))
              eq_refl cfg_5_2_fits eq_refl) as [(k & _ & Hk & Hn & _) _].
  rewrite (Hk eq_refl) in Hn. exact Hn.
Defined.

(** A prefix of fifteen characters: [kni_start] succeeds and the name of
    the only port is the bare prefix, not the prefix followed by 0. *)
Lemma kni_start_long_prefix_drops_ordinal :
  cfg_kni cfg_long_1 = true /\
  fst (fst (kni_start 4 env_ok cfg_long_1 [])) = 0 /\
  map handle_name (ports (snd (fst (kni_start 4 env_ok cfg_long_1 [])))) =
    [Some "abcdefghijklmno"] /\
  map handle_name (ports (snd (fst (kni_start 4 env_ok cfg_long_1 [])))) <>
    map (fun i => Some (kni_ifname cfg_long_1 ++ fmt_d i)%string)
        (seq 0 (length (ports cfg_long_1))).
Proof.
  repeat split; try reflexivity. vm_compute. discriminate.
Qed.

(** On a host where every call succeeds, a prefix of fifteen characters
    does not make creation fail: the only port gets a handle under the
    truncated name. *)
Lemma kni_set_name_truncates_witness :
  (RTE_KNI_NAMESIZE <= String.length (kni_ifname cfg_long ++ fmt_d 1)%string)%nat /\
  String.length (kni_set_name cfg_long 1) = 15%nat /\
  kni_set_name cfg_5_2 1 = "kni1" /\
  cfg_kni cfg_trunc = true /\
  exists cfg' tr',
    kni_start 4 env_ok cfg_trunc [] = (0, cfg', tr') /\
    map handle_name (ports cfg') = [Some "dperf_kni_port_"].
Proof.
  pose proof (kni_set_name_truncates 4 env_ok cfg_long 1) as H1.
  pose proof (kni_set_name_truncates 4 env_ok cfg_5_2 1) as H2.
  pose proof (kni_set_name_truncates 4 env_ok cfg_trunc 0) as H3.
  cbv zeta in H1, H2, H3.
  destruct H1 as (_ & _ & _ & Hlong & _).
  destruct H2 as (_ & _ & Hfit & _).
  destruct H3 as (_ & _ & _ & _ & _ & _ & _ & Hstart).
  assert (H : (RTE_KNI_NAMESIZE <=
               String.length (kni_ifname cfg_long ++ fmt_d 1)%string)%nat)
    by (vm_compute; lia).
  split; [exact H|]. split; [exact (proj1 (Hlong H))|].
  split; [apply Hfit; vm_compute; lia|].
  split; [reflexivity|].
  exact (Hstart (fun _ _ => eq_refl) (fun _ _ => eq_refl)
                (fun _ _ _ => eq_refl) eq_refl []).
Defined.

(** A prefix of fifteen characters: [kni_start] returns 0 and the only
    port gets a handle whose name is the prefix cut of its ordinal; the
    name computed for position 1 is the same as for position 0. *)
Lemma kni_start_truncates_without_error :
  (RTE_KNI_NAMESIZE <=
   String.length (kni_ifname cfg_trunc ++ fmt_d 0)%string)%nat /\
  fst (fst (kni_start 4 env_ok cfg_trunc [])) = 0 /\
  map handle_name (ports (snd (fst (kni_start 4 env_ok cfg_trunc [])))) =
    [Some "dperf_kni_port_"] /\
  kni_set_name cfg_trunc 0 <> (kni_ifname cfg_trunc ++ fmt_d 0)%string /\
  kni_set_name cfg_trunc 0 = kni_set_name cfg_trunc 1.
Proof.
  repeat split; try reflexivity; vm_compute; try lia; discriminate.
Qed.

Lemma kni_start_group_ids_witness :
  cfg_kni cfg_5_2 = true /\
  map handle_group_id (ports cfg_5_2_started) = [Some 5; Some 2] /\
  map handle_name (ports cfg_5_2_started) = [Some "kni0"; Some "kni1"].
Proof.
  split; [reflexivity|].
  destruct (kni_start_group_ids 4 env_ok cfg_5_2 [] 0 cfg_5_2_started
              (snd (kni_start 4 env_ok cfg_5_2 []))
              eq_refl cfg_5_2_ids eq_refl) as [(k & _ & Hk & Hg & Hn & _) _].
  rewrite (Hk eq_refl) in Hg, Hn. split; [exact Hg|exact Hn].
Defined.

(** The MTU-bounds query fails for the second port: [kni_start] returns -1,
    the first port keeps its handle and the second has none.  On a host
    where only the current-MTU query fails, [kni_alloc] still returns a
    handle, with current MTU 0. *)
Lemma kni_start_fails_at_first_failure_witness :
  cfg_kni cfg_5_2 = true /\
  fst (fst (kni_start 4 env_port2_fails cfg_5_2 [])) = -1 /\
  map handle_name
      (ports (snd (fst (kni_start 4 env_port2_fails cfg_5_2 [])))) =
    [Some "kni0"; None] /\
  (forall h,
     fst (kni_alloc env_mtu_fails cfg_5_2 0 (mk_port 5 pool_of None) []) =
       Some h ->
     conf_mtu (kni_conf h) = 0).
Proof.
  split; [reflexivity|].
  destruct (kni_start_fails_at_first_failure 4 env_port2_fails cfg_5_2 []
              eq_refl) as (_ & Hloop & _).
  rewrite (Hloop [mk_port 5 pool_of None] (mk_port 2 pool_of None) []
             (snd (fst (kni_create_from env_port2_fails cfg_5_2 0
                          [mk_port 5 pool_of None] [Ev_rte_kni_init 4])))
             (snd (kni_create_from env_port2_fails cfg_5_2 0
                     [mk_port 5 pool_of None] [Ev_rte_kni_init 4]))
             (snd (kni_alloc env_port2_fails cfg_5_2 1 (mk_port 2 pool_of None)
                     (snd (kni_create_from env_port2_fails cfg_5_2 0
                             [mk_port 5 pool_of None] [Ev_rte_kni_init 4]))))
             eq_refl eq_refl eq_refl).
  split; [reflexivity|]. split; [reflexivity|].
  intros h Hh.
  destruct (kni_start_fails_at_first_failure 4 env_mtu_fails cfg_5_2 []
              eq_refl) as (Halloc & _).
  destruct (Halloc 0%nat (mk_port 5 pool_of None) []
              (fst (kni_alloc env_mtu_fails cfg_5_2 0 (mk_port 5 pool_of None) []))
              (snd (kni_alloc env_mtu_fails cfg_5_2 0 (mk_port 5 pool_of None) []))
              eq_refl) as (d & Hd & _ & Hmtu).
  apply (Hmtu h (-95) Hh); [|lia].
  simpl in Hd. rewrite <- Hd. vm_compute. tauto.
Defined.

(** Releasing the first handle fails; the port in the middle has no
    handle: all three ports end up detached and one line is printed. *)
Lemma kni_stop_detaches_every_port_witness :
  cfg_kni cfg_gap = true /\
  (forall p', In p' (ports (fst (kni_stop env_release_fails cfg_gap []))) ->
              port_kni p' = None) /\
  length (releases (snd (kni_stop env_release_fails cfg_gap []))) = 2%nat /\
  printed (snd (kni_stop env_release_fails cfg_gap [])) =
    [("failed to free kni" ++ newline)%string].
Proof.
  split; [reflexivity|].
  destruct (kni_stop_detaches_every_port env_release_fails cfg_gap [] eq_refl)
    as (d & Heq & Hnone & Hrel & Hpr & _).
  split; [exact Hnone|]. rewrite Heq. simpl.
  split.
  - rewrite <- (length_map fst), Hrel. reflexivity.
  - rewrite Hpr. rewrite Heq in Hnone.
    assert (Hd : d = snd (kni_stop env_release_fails cfg_gap [])).
    { rewrite Heq. reflexivity. }
    rewrite Hd. reflexivity.
Defined.

(** Writing the flags of "kni1" fails: the first port is brought up, the
    step of the second returns -1 and so does [kni_link_up]. *)
Lemma kni_link_up_in_order_witness :
  fst (kni_link_up env_set_flags_fails cfg_5_2_started []) = -1 /\
  kni_set_link_up env_ok cfg_5_2 0 port_without_handle [] = (0, []).
Proof.
  destruct (kni_link_up_in_order env_set_flags_fails cfg_5_2_started [])
    as (_ & _ & Hfail & _).
  destruct (kni_link_up_in_order env_ok cfg_5_2 []) as (Hnone & _).
  split.
  - rewrite (Hfail (firstn 1 (ports cfg_5_2_started))
                   (nth 1 (ports cfg_5_2_started) port_without_handle) []
                   (snd (kni_link_up_from env_set_flags_fails cfg_5_2_started 0
                           (firstn 1 (ports cfg_5_2_started)) []))
                   (-1)
                   (snd (kni_link_up env_set_flags_fails cfg_5_2_started []))
                   eq_refl eq_refl eq_refl eq_refl).
    reflexivity.
  - apply Hnone. reflexivity.
Defined.

(** The failing step above still closes the descriptor it opened. *)
Lemma kni_set_link_up_closes_socket_witness :
  fst (kni_set_link_up env_set_flags_fails cfg_5_2_started 1
         port_with_handle []) = -1 /\
  closed_fds (snd (kni_set_link_up env_set_flags_fails cfg_5_2_started 1
                     port_with_handle [])) = [3].
Proof.
  split; [reflexivity|].
  destruct (kni_set_link_up_closes_socket env_set_flags_fails
              cfg_5_2_started []) as (Hstep & _).
  destruct (Hstep 1%nat port_with_handle [] (-1)
              (snd (kni_set_link_up env_set_flags_fails cfg_5_2_started 1
                      port_with_handle [])) eq_refl)
    as (d & Hd & Hbal & _).
  rewrite app_nil_l in Hd. rewrite Hd, Hbal, <- Hd. reflexivity.
Defined.

(** No handle; handle and queue accepting; handle and queue full. *)
Lemma kni_recv_cases_witness :
  kni_recv env_ok (mk_ws port_without_handle) 55 [] =
    (tt, [Ev_mbuf_free 55; Ev_net_stats_drop]) /\
  (exists k, kni_recv env_ok (mk_ws port_with_handle) 55 [] =
             (tt, [Ev_rte_kni_tx_burst k 55 1; Ev_net_stats_kni_rx])) /\
  (exists k, kni_recv env_queue_full (mk_ws port_with_handle) 55 [] =
             (tt, [Ev_rte_kni_tx_burst k 55 0; Ev_mbuf_free 55;
                   Ev_net_stats_drop])).
Proof.
  split; [|split].
  - apply (proj1 (kni_recv_cases env_ok (mk_ws port_without_handle) 55 [])).
    reflexivity.
  - eexists.
    apply (proj1 (proj2 (kni_recv_cases env_ok (mk_ws port_with_handle) 55 []))
                 _ eq_refl eq_refl).
  - eexists.
    apply (proj2 (proj2 (kni_recv_cases env_queue_full (mk_ws port_with_handle)
                           55 []))
                 _ eq_refl).
    simpl. discriminate.
Defined.

(** A port without a handle, NB_RXD = 2, a library that answers the drain
    on NULL with buffers: [kni_send] drains and sends. *)
Lemma kni_send_null_handle_drains_witness :
  port_kni (ws_port (mk_ws port_without_handle)) = None /\
  exists mbufs,
    In (Ev_rte_kni_rx_burst None 2 mbufs)
       (snd (kni_send 2 env_ok (mk_ws port_without_handle) [])).
Proof.
  split; [reflexivity|].
  destruct (kni_send_null_handle_drains 2 env_ok (mk_ws port_without_handle)
              55 [] eq_refl) as (_ & mbufs & Heq & _).
  exists mbufs. rewrite Heq. simpl. auto.
Defined.

(** * Further properties of kni.c *)

Section Lifecycle.

Variable NETIF_PORT_MAX : nat.
Variable E : env.

Ltac run := unfold Bind, call, emit, Ret in *; simpl in *.

(** ** What a creation leaves in the trace *)

(** One [kni_alloc]: only queries and at most one allocation; the bounds
    query is always made, the other two whenever a handle comes back. *)
Lemma kni_alloc_trace (cfg : config) (idx : nat) (p : netif_port)
      (res : option rte_kni) (tr tr' : trace) :
  kni_alloc E cfg idx p tr = (res, tr') ->
  exists d, tr' = tr ++ d /\
    forallb is_start_event d = true /\
    allocated d = match res with Some h => [h] | None => [] end /\
    existsb failed_step d = match res with Some _ => false | None => true end /\
    bounds_queried d = [uint16_t (id p)] /\
    (res <> None ->
     mtu_queried d = [uint16_t (id p)] /\ mac_queried d = [uint16_t (id p)]).
Proof.
  unfold kni_alloc, kni_set_mtu, kni_set_mac, rte_eth_dev_info_get,
    rte_eth_dev_get_mtu, rte_eth_macaddr_get, rte_kni_alloc. run.
  destruct (env_dev_info_get E tr _) as [r1 di]; simpl.
  destruct (Z.eqb_spec r1 0) as [->|Hr1]; simpl.
  - destruct (env_dev_get_mtu E _ _) as [rm v]; simpl.
    destruct (env_macaddr_get E _ _) as [r3 mac]; simpl.
    destruct (Z.eqb_spec r3 0) as [->|Hr3]; simpl.
    + destruct (env_kni_alloc E _ _ _) eqn:Hk; intros H; inversion H; subst;
        clear H; repeat rewrite <- app_assoc; simpl;
        (eexists; split; [reflexivity|]); simpl; repeat split; auto;
        try (intros; congruence).
    + intros H; inversion H; subst; clear H; repeat rewrite <- app_assoc; simpl.
      eexists; split; [reflexivity|]. simpl.
      destruct (Z.eqb_spec r3 0); [contradiction|].
      repeat split; auto; try (intros; congruence).
  - intros H; inversion H; subst; clear H.
    eexists; split; [reflexivity|]. simpl.
    destruct (Z.eqb_spec r1 0); [contradiction|].
    repeat split; auto; try (intros; congruence).
Qed.

Lemma allocated_app (a b : trace) :
  allocated (a ++ b) = allocated a ++ allocated b.
Proof. apply flat_map_app. Qed.

Lemma bounds_queried_app (a b : trace) :
  bounds_queried (a ++ b) = bounds_queried a ++ bounds_queried b.
Proof. apply flat_map_app. Qed.

Lemma mtu_queried_app (a b : trace) :
  mtu_queried (a ++ b) = mtu_queried a ++ mtu_queried b.
Proof. apply flat_map_app. Qed.

Lemma mac_queried_app (a b : trace) :
  mac_queried (a ++ b) = mac_queried a ++ mac_queried b.
Proof. apply flat_map_app. Qed.

(** The loop of [kni_create]: the array afterwards is the array before
    with the handles allocated on the way attached to its first ports. *)
Lemma kni_create_from_trace (cfg : config) (ps : list netif_port) :
  forall idx tr r ps' tr',
    kni_create_from E cfg idx ps tr = (r, ps', tr') ->
    exists d, tr' = tr ++ d /\
      forallb is_start_event d = true /\
      ps' = attach (allocated d) ps /\
      (r = 0 /\ length (allocated d) = length ps /\
       existsb failed_step d = false /\
       bounds_queried d = map (fun p => uint16_t (id p)) ps /\
       mtu_queried d = map (fun p => uint16_t (id p)) ps /\
       mac_queried d = map (fun p => uint16_t (id p)) ps
       \/
       r = -1 /\ (length (allocated d) < length ps)%nat /\
       existsb failed_step d = true /\
       bounds_queried d =
         map (fun p => uint16_t (id p))
             (firstn (S (length (allocated d))) ps)).
Proof.
  induction ps as [|p ps IH]; intros idx tr r ps' tr' H; simpl in H.
  - inversion H; subst. exists []. rewrite app_nil_r. simpl.
    repeat split; auto. left. repeat split; auto.
  - unfold Bind at 1 in H.
    destruct (kni_alloc E cfg idx p tr) as [res tr1] eqn:Halloc.
    destruct (kni_alloc_trace _ _ _ _ _ _ Halloc)
      as (d1 & -> & Hev1 & Hal1 & Hf1 & Hb1 & Hq1).
    destruct res as [h|].
    + unfold Bind at 1 in H.
      destruct (kni_create_from E cfg (S idx) ps (tr ++ d1))
        as [[r1 ps1] tr2] eqn:Hrec.
      inversion H; subst; clear H.
      destruct (IH _ _ _ _ _ Hrec) as (d2 & -> & Hev2 & Hatt & Hres).
      destruct Hq1 as [Hm1 Hc1]; [discriminate|].
      exists (d1 ++ d2). rewrite app_assoc.
      rewrite forallb_app, Hev1, Hev2, allocated_app, Hal1.
      rewrite existsb_app, Hf1, bounds_queried_app, Hb1,
        mtu_queried_app, Hm1, mac_queried_app, Hc1.
      simpl. repeat split; auto.
      * now rewrite <- Hatt.
      * destruct Hres as [(-> & Hl & Hf & Hb & Hm & Hc)
                         |(-> & Hl & Hf & Hb)].
        { left. repeat split; auto; congruence. }
        right. repeat split; auto; [lia|]. now rewrite Hb.
    + inversion H; subst; clear H.
      exists d1. rewrite Hal1, Hf1, Hb1. simpl. repeat split; auto.
      right. repeat split; auto. lia.
Qed.

(** The same for [kni_start] with the subsystem enabled. *)
Lemma kni_start_trace (cfg : config) (tr : trace) (r : Z) (cfg' : config)
      (tr' : trace) :
  cfg_kni cfg = true ->
  kni_start NETIF_PORT_MAX E cfg tr = (r, cfg', tr') ->
  exists d, tr' = tr ++ d /\
    forallb is_start_event d = true /\
    cfg' = set_ports cfg (attach (allocated d) (ports cfg)) /\
    (r = 0 /\ length (allocated d) = length (ports cfg) /\
     existsb failed_step d = false /\
     bounds_queried d = map (fun p => uint16_t (id p)) (ports cfg) /\
     mtu_queried d = map (fun p => uint16_t (id p)) (ports cfg) /\
     mac_queried d = map (fun p => uint16_t (id p)) (ports cfg)
     \/
     r = -1 /\ (length (allocated d) < length (ports cfg))%nat /\
     existsb failed_step d = true /\
     bounds_queried d =
       map (fun p => uint16_t (id p))
           (firstn (S (length (allocated d))) (ports cfg))).
Proof.
  intros Hen H. rewrite (kni_start_enabled _ _ _ _ Hen) in H.
  destruct (kni_create_from E cfg 0 (ports cfg) _) as [[r0 ps] t] eqn:Hc.
  inversion H; subst; clear H.
  destruct (kni_create_from_trace _ _ _ _ _ _ _ Hc)
    as (d & -> & Hev & Hatt & Hres).
  exists (Ev_rte_kni_init NETIF_PORT_MAX :: d).
  rewrite <- app_assoc. simpl. repeat split; auto. now rewrite Hatt.
Qed.

(** ** Attaching and detaching *)

Lemma handles_attach_all (hs : list rte_kni) :
  forall ps, length hs = length ps -> handles (attach hs ps) = hs.
Proof.
  induction hs as [|h hs IH]; intros [|p ps] Hl; simpl in *; try lia; auto.
  f_equal. apply IH. lia.
Qed.

Lemma handles_none (ps : list netif_port) :
  Forall (fun p => port_kni p = None) ps -> handles ps = [].
Proof.
  induction 1 as [|p ps Hp _ IH]; simpl; [reflexivity|]. now rewrite Hp.
Qed.

Lemma handles_attach_fresh (hs : list rte_kni) :
  forall ps, Forall (fun p => port_kni p = None) ps ->
             (length hs <= length ps)%nat ->
             handles (attach hs ps) = hs.
Proof.
  induction hs as [|h hs IH]; intros ps Hn Hl; simpl.
  - destruct ps; apply handles_none; assumption.
  - destruct ps as [|p ps]; simpl in *; [lia|].
    inversion Hn; subst. f_equal. apply IH; [assumption|lia].
Qed.

Lemma detach_attach_fresh (hs : list rte_kni) :
  forall ps, Forall (fun p => port_kni p = None) ps ->
             map (fun p => set_port_kni p None) (attach hs ps) = ps.
Proof.
  induction hs as [|h hs IH]; intros ps Hn.
  - assert (attach [] ps = ps) as -> by (destruct ps; reflexivity).
    induction Hn as [|p ps Hp _ IHn]; simpl; [reflexivity|].
    now rewrite IHn, (set_port_kni_None _ Hp).
  - destruct ps as [|p ps]; simpl; [reflexivity|].
    inversion Hn as [|q qs Hp Hps]; subst. rewrite IH by assumption.
    f_equal. destruct p as [i mp k]; simpl in *. unfold set_port_kni. simpl.
    now rewrite Hp.
Qed.

Lemma attach_ids (hs : list rte_kni) :
  forall ps, map id (attach hs ps) = map id ps /\
             length (attach hs ps) = length ps.
Proof.
  induction hs as [|h hs IH]; intros [|p ps]; simpl; auto.
  destruct (IH ps) as [-> ->]. auto.
Qed.

Lemma forallb_start_no_release (d : trace) :
  forallb is_start_event d = true ->
  releases d = [] /\ open_fds d = [] /\ closed_fds d = [].
Proof.
  induction d as [|e d IH]; simpl; [auto|].
  intros H. apply andb_true_iff in H. destruct H as [He Hd].
  destruct (IH Hd) as (H1 & H2 & H3).
  destruct e; simpl in *; try discriminate; auto.
Qed.

(** ** Start and stop together *)

(** X1.  From a configuration with the subsystem enabled and no handle
    attached, [kni_start] followed by [kni_stop] gives back the very
    configuration it started from, whether the start succeeded or failed
    on the way, and the stop releases exactly the handles the start
    allocated, in the order of their allocation. *)
Theorem kni_start_stop_round_trip (cfg : config) (tr : trace) (r : Z)
        (cfg' : config) (tr1 : trace) :
  cfg_kni cfg = true ->
  Forall (fun p => port_kni p = None) (ports cfg) ->
  kni_start NETIF_PORT_MAX E cfg tr = (r, cfg', tr1) ->
  exists d1 d2,
    tr1 = tr ++ d1 /\
    kni_stop E cfg' tr1 = (cfg, tr1 ++ d2) /\
    map fst (releases d2) = allocated d1.
Proof.
  intros Hen Hnone H.
  destruct (kni_start_trace _ _ _ _ _ Hen H) as (d1 & Htr & _ & Hcfg & Hres).
  assert (Hlen : (length (allocated d1) <= length (ports cfg))%nat).
  { destruct Hres as [(_ & Hl & _)|(_ & Hl & _)]; lia. }
  destruct (kni_free_from_spec E (ports cfg') tr1) as (d2 & Heq & Hrel & _).
  exists d1, d2. split; [exact Htr|]. split.
  - unfold kni_stop, kni_free.
    assert (cfg_kni cfg' = true) as -> by (rewrite Hcfg; exact Hen).
    unfold Bind. rewrite Heq. unfold Ret. f_equal.
    rewrite Hcfg. simpl. rewrite (detach_attach_fresh _ _ Hnone).
    destruct cfg; simpl in *. reflexivity.
  - rewrite Hrel, Hcfg. simpl. now apply handles_attach_fresh.
Qed.

(** X2.  Whatever was attached before, [kni_start] (subsystem enabled)
    calls nothing but [rte_kni_init], the three ethdev queries and
    [rte_kni_alloc]: it never releases a handle and opens no descriptor.
    The array afterwards is the old one with the fresh handles put on its
    first ports, so after a return of 0 the attached handles are exactly
    the fresh ones: handles attached earlier are overwritten, not
    released. *)
Theorem kni_start_never_releases (cfg : config) (tr : trace) (r : Z)
        (cfg' : config) (tr' : trace) :
  cfg_kni cfg = true ->
  kni_start NETIF_PORT_MAX E cfg tr = (r, cfg', tr') ->
  exists d, tr' = tr ++ d /\
    forallb is_start_event d = true /\
    releases d = [] /\ open_fds d = [] /\
    ports cfg' = attach (allocated d) (ports cfg) /\
    map id (ports cfg') = map id (ports cfg) /\
    (r = 0 -> handles (ports cfg') = allocated d).
Proof.
  intros Hen H.
  destruct (kni_start_trace _ _ _ _ _ Hen H) as (d & Htr & Hev & Hcfg & Hres).
  destruct (forallb_start_no_release _ Hev) as (Hr & Ho & _).
  exists d. rewrite Hcfg. simpl. repeat split; auto.
  - apply attach_ids.
  - intros ->. destruct Hres as [(_ & Hl & _)|(Hr0 & _)]; [|discriminate].
    now apply handles_attach_all.
Qed.

(** X3.  With the subsystem enabled [kni_start] returns 0 or -1; -1
    exactly when one of the steps that can fail (bounds query, MAC query,
    handle construction) failed somewhere in its trace, and 0 exactly when
    it allocated one handle per port. *)
Theorem kni_start_result (cfg : config) (tr : trace) (r : Z)
        (cfg' : config) (tr' : trace) :
  cfg_kni cfg = true ->
  kni_start NETIF_PORT_MAX E cfg tr = (r, cfg', tr') ->
  exists d, tr' = tr ++ d /\
    (r = 0 \/ r = -1) /\
    (r = -1 <-> existsb failed_step d = true) /\
    (r = 0 <-> length (allocated d) = length (ports cfg)).
Proof.
  intros Hen H.
  destruct (kni_start_trace _ _ _ _ _ Hen H) as (d & Htr & _ & _ & Hres).
  exists d. split; [exact Htr|].
  destruct Hres as [(-> & Hl & Hf & _)|(-> & Hl & Hf & _)].
  - split; [now left|]. split; split; auto; try discriminate.
    rewrite Hf; discriminate.
  - split; [now right|]. split; split; auto; try discriminate. lia.
Qed.

(** X4.  The hardware is asked by hardware id, not by position: after a
    return of 0 each of the three ethdev queries was made once per port, in
    array order, with the 16-bit id of that port; after a return of -1 the
    bounds query was made for the ports that got a fresh handle and for
    the one behind them, and for no other. *)
Theorem kni_start_queries_by_port_id (cfg : config) (tr : trace) (r : Z)
        (cfg' : config) (tr' : trace) :
  cfg_kni cfg = true ->
  kni_start NETIF_PORT_MAX E cfg tr = (r, cfg', tr') ->
  exists d, tr' = tr ++ d /\
    (r = 0 ->
     bounds_queried d = map (fun p => uint16_t (id p)) (ports cfg) /\
     mtu_queried d = map (fun p => uint16_t (id p)) (ports cfg) /\
     mac_queried d = map (fun p => uint16_t (id p)) (ports cfg)) /\
    (r = -1 ->
     (length (allocated d) < length (ports cfg))%nat /\
     bounds_queried d =
       map (fun p => uint16_t (id p))
           (firstn (S (length (allocated d))) (ports cfg))).
Proof.
  intros Hen H.
  destruct (kni_start_trace _ _ _ _ _ Hen H) as (d & Htr & _ & Hcfg & Hres).
  exists d. split; [exact Htr|].
  destruct Hres as [(-> & _ & _ & Hb & Hm & Hc)|(-> & Hl & _ & Hb)].
  - split; [auto|discriminate].
  - split; [discriminate|]. auto.
Qed.

(** ** What a handle mirrors *)

(** X5.  A handle returned by [kni_alloc] mirrors the port at that moment:
    its MTU bounds are those [rte_eth_dev_info_get] reported, its current
    MTU the one [rte_eth_dev_get_mtu] reported (0 if that query failed),
    its MAC address the one [rte_eth_macaddr_get] reported, and
    [rte_kni_alloc] was called last, with the first pool of the port and
    exactly the configuration the handle holds. *)
Theorem kni_alloc_mirrors_hardware (cfg : config) (idx : nat)
        (p : netif_port) (h : rte_kni) (tr tr' : trace) :
  kni_alloc E cfg idx p tr = (Some h, tr') ->
  let pid := uint16_t (id p) in
  let tr1 := tr ++ [Ev_rte_eth_dev_info_get pid 0] in
  let rm := env_dev_get_mtu E tr1 pid in
  let tr2 := tr1 ++ [Ev_rte_eth_dev_get_mtu pid (fst rm)] in
  conf_min_mtu (kni_conf h) = dev_min_mtu (snd (env_dev_info_get E tr pid)) /\
  conf_max_mtu (kni_conf h) = dev_max_mtu (snd (env_dev_info_get E tr pid)) /\
  conf_mtu (kni_conf h) = (if fst rm =? 0 then snd rm else 0) /\
  conf_mac_addr (kni_conf h) = snd (env_macaddr_get E tr2 pid) /\
  tr' = tr2 ++ [Ev_rte_eth_macaddr_get pid 0;
                Ev_rte_kni_alloc (mbuf_pool p 0) (kni_conf h) true].
Proof.
  unfold kni_alloc, kni_set_mtu, kni_set_mac, rte_eth_dev_info_get,
    rte_eth_dev_get_mtu, rte_eth_macaddr_get, rte_kni_alloc. run.
  destruct (env_dev_info_get E tr _) as [r1 di]; simpl.
  destruct (Z.eqb_spec r1 0) as [->|Hr1]; simpl; [|intros H; inversion H].
  destruct (env_dev_get_mtu E _ _) as [rm v]; simpl.
  destruct (env_macaddr_get E _ _) as [r3 mac]; simpl.
  destruct (Z.eqb_spec r3 0) as [->|Hr3]; simpl; [|intros H; inversion H].
  destruct (env_kni_alloc E _ _ _); intros H; inversion H; subst; clear H.
  simpl. repeat rewrite <- app_assoc. simpl. repeat split; reflexivity.
Qed.

End Lifecycle.

(** ** Names are unique while they fit *)

Lemma fmt_d_inj (a b : nat) : fmt_d a = fmt_d b -> a = b.
Proof.
  unfold fmt_d. intros H.
  apply (f_equal NilEmpty.uint_of_string) in H.
  rewrite !NilEmpty.usu in H. inversion H as [H1].
  apply (f_equal Nat.of_uint) in H1.
  now rewrite !DecimalNat.Unsigned.of_to in H1.
Qed.

Lemma append_inj_l (s a b : string) :
  (s ++ a)%string = (s ++ b)%string -> a = b.
Proof. induction s as [|c s IH]; simpl; intros H; [exact H|]. inversion H; auto. Qed.

(** X6.  Two positions whose names both stay below RTE_KNI_NAMESIZE
    characters never get the same name. *)
Theorem kni_set_name_injective (cfg : config) (i j : nat) :
  (String.length (kni_ifname cfg ++ fmt_d i)%string < RTE_KNI_NAMESIZE)%nat ->
  (String.length (kni_ifname cfg ++ fmt_d j)%string < RTE_KNI_NAMESIZE)%nat ->
  kni_set_name cfg i = kni_set_name cfg j ->
  i = j.
Proof.
  intros Hi Hj H.
  rewrite (kni_set_name_fits _ _ Hi), (kni_set_name_fits _ _ Hj) in H.
  apply fmt_d_inj. exact (append_inj_l _ _ _ H).
Qed.

Section LinkAndBridge.

Variable NETIF_PORT_MAX : nat.
Variable E : env.

(** ** Link-up *)

Lemma kni_link_up_from_none (cfg : config) (ps : list netif_port) :
  Forall (fun p => port_kni p = None) ps ->
  forall idx tr, kni_link_up_from E cfg idx ps tr = (0, tr).
Proof.
  induction 1 as [|p ps Hp _ IH]; intros idx tr; simpl; [reflexivity|].
  unfold Bind at 1. rewrite kni_set_link_up_run, Hp. simpl. apply IH.
Qed.

(** X7.  [kni_link_up] does not look at the enable flag: on an array
    without handles it returns 0 and calls nothing, whatever the flag. *)
Theorem kni_link_up_without_handles (cfg : config) (tr : trace) :
  Forall (fun p => port_kni p = None) (ports cfg) ->
  kni_link_up E cfg tr = (0, tr).
Proof. intros H. unfold kni_link_up. now apply kni_link_up_from_none. Qed.

(** One step of link-up, seen through its calls. *)
Lemma kni_set_link_up_trace (cfg : config) (idx : nat) (p : netif_port)
      (tr : trace) (r : Z) (tr' : trace) :
  kni_set_link_up E cfg idx p tr = (r, tr') ->
  exists d, tr' = tr ++ d /\
    forallb is_link_event d = true /\
    (length (open_fds d) <= length (handles [p]))%nat /\
    (forall name, In name (flag_reads d ++ flag_writes d) ->
                  name = kni_set_name cfg idx) /\
    (r = 0 ->
     length (open_fds d) = length (handles [p]) /\
     flag_reads d = link_names cfg idx [p] /\
     flag_writes d = link_names cfg idx [p]).
Proof.
  rewrite kni_set_link_up_run. unfold handles. simpl.
  destruct (port_kni p); cbv zeta.
  - destruct (Z.ltb_spec (env_socket E tr) 0) as [Hfd|Hfd].
    + intros H; inversion H; subst; clear H. eexists; split; [reflexivity|].
      simpl. destruct (Z.ltb_spec (env_socket E tr) 0); [|lia]. simpl.
      repeat split; auto; try discriminate. intros name [].
    + destruct (fst (env_ioctl_get E _ _ _) <? 0);
        [|destruct (env_ioctl_set E _ _ _ _ <? 0)];
        intros H; inversion H; subst; clear H;
        (eexists; split; [reflexivity|]); simpl;
        (destruct (Z.ltb_spec (env_socket E tr) 0); [lia|]); simpl;
        repeat split; auto; try discriminate;
        intros name Hin; simpl in Hin; intuition congruence.
  - intros H; inversion H; subst; clear H. exists []. rewrite app_nil_r.
    simpl. repeat split; auto. intros name [].
Qed.

Lemma flag_reads_app (a b : trace) :
  flag_reads (a ++ b) = flag_reads a ++ flag_reads b.
Proof. apply flat_map_app. Qed.

Lemma flag_writes_app (a b : trace) :
  flag_writes (a ++ b) = flag_writes a ++ flag_writes b.
Proof. apply flat_map_app. Qed.

Lemma handles_cons (p : netif_port) (ps : list netif_port) :
  handles (p :: ps) = handles [p] ++ handles ps.
Proof. unfold handles. simpl. now rewrite app_nil_r. Qed.

Lemma link_names_cons (cfg : config) (idx : nat) (p : netif_port)
      (ps : list netif_port) :
  link_names cfg idx (p :: ps) =
  link_names cfg idx [p] ++ link_names cfg (S idx) ps.
Proof. simpl. destruct (port_kni p); reflexivity. Qed.

Lemma kni_link_up_from_trace (cfg : config) (ps : list netif_port) :
  forall idx tr r tr',
    kni_link_up_from E cfg idx ps tr = (r, tr') ->
    exists d, tr' = tr ++ d /\
      forallb is_link_event d = true /\
      (length (open_fds d) <= length (handles ps))%nat /\
      (r = 0 ->
       length (open_fds d) = length (handles ps) /\
       flag_reads d = link_names cfg idx ps /\
       flag_writes d = link_names cfg idx ps).
Proof.
  induction ps as [|p ps IH]; intros idx tr r tr' H.
  - simpl in H. inversion H; subst. exists []. rewrite app_nil_r.
    simpl. repeat split; auto.
  - rewrite handles_cons, link_names_cons, length_app.
    simpl in H. unfold Bind at 1 in H.
    destruct (kni_set_link_up E cfg idx p tr) as [r1 tr1] eqn:Hstep.
    destruct (kni_set_link_up_trace _ _ _ _ _ _ Hstep)
      as (d1 & -> & Hev1 & Hle1 & _ & Hok1).
    destruct (Z.ltb_spec r1 0) as [Hr1|Hr1].
    + inversion H; subst. exists d1. repeat split; auto; try lia; discriminate.
    + assert (r1 = 0) as ->.
      { rewrite kni_set_link_up_run in Hstep.
        destruct (port_kni p); cbv zeta in Hstep;
          repeat match type of Hstep with
                 | context [if ?c then _ else _] => destruct c
                 end; inversion Hstep; subst; lia. }
      destruct (Hok1 eq_refl) as (Ho1 & Hr & Hw).
      destruct (IH _ _ _ _ H) as (d2 & -> & Hev2 & Hle2 & Hok2).
      exists (d1 ++ d2). rewrite app_assoc, forallb_app, Hev1, Hev2.
      rewrite open_fds_app, length_app, flag_reads_app, flag_writes_app.
      split; [reflexivity|]. split; [reflexivity|]. split; [lia|].
      intros Hr0. destruct (Hok2 Hr0) as (Ho2 & Hr2 & Hw2).
      split; [lia|]. split; congruence.
Qed.

Lemma link_event_not_kni_call (d : trace) :
  forallb is_link_event d = true ->
  existsb is_kni_call d = false /\ releases d = [] /\ allocated d = [].
Proof.
  induction d as [|e d IH]; simpl; [auto|].
  intros H. apply andb_true_iff in H. destruct H as [He Hd].
  destruct (IH Hd) as (H1 & H2 & H3).
  destruct e; simpl in *; try discriminate; auto.
Qed.

(** X8.  [kni_link_up] only calls socket, ioctl, printf and close; it
    never calls into the rte_kni library (so it does not service the
    requests its own ioctl raises).  It opens at most one descriptor per
    attached handle, and exactly one per handle when it returns 0. *)
Theorem kni_link_up_footprint (cfg : config) (tr : trace) (r : Z)
        (tr' : trace) :
  kni_link_up E cfg tr = (r, tr') ->
  exists d, tr' = tr ++ d /\
    forallb is_link_event d = true /\
    existsb is_kni_call d = false /\
    (length (open_fds d) <= length (handles (ports cfg)))%nat /\
    (r = 0 -> length (open_fds d) = length (handles (ports cfg))).
Proof.
  unfold kni_link_up. intros H.
  destruct (kni_link_up_from_trace _ _ _ _ _ _ H) as (d & -> & Hev & Hle & Hok).
  exists d. repeat split; auto.
  - apply (link_event_not_kni_call _ Hev).
  - intros Hr. apply (Hok Hr).
Qed.

Lemma attached_from_link_names (cfg cfg2 : config) (idx : nat)
      (ps ps' : list netif_port) :
  attached_from cfg idx ps ps' ->
  link_names cfg2 idx ps' = map (kni_set_name cfg2) (seq idx (length ps)).
Proof.
  induction 1 as [|idx p h ps ps' Hn Hg Hs Hp Hrec IH]; simpl; [reflexivity|].
  now rewrite IH.
Qed.

Lemma attached_from_handles_length (cfg : config) (idx : nat)
      (ps ps' : list netif_port) :
  attached_from cfg idx ps ps' -> length (handles ps') = length ps'.
Proof.
  induction 1 as [|idx p h ps ps' Hn Hg Hs Hp Hrec IH]; [reflexivity|].
  change (handles (set_port_kni p (Some h) :: ps')) with (h :: handles ps').
  simpl. now rewrite IH.
Qed.

(** X9.  Link-up finds the interfaces start created: after a [kni_start]
    that returned 0 (subsystem enabled), a [kni_link_up] that returns 0 on
    the resulting configuration reads and writes the flags of exactly the
    interface names held by the handles, in array order, one descriptor
    each.  This holds also when the names were truncated. *)
Theorem kni_link_up_names_match_start (cfg : config) (tr : trace)
        (cfg' : config) (tr1 tr2 : trace) :
  cfg_kni cfg = true ->
  kni_start NETIF_PORT_MAX E cfg tr = (0, cfg', tr1) ->
  kni_link_up E cfg' tr1 = (0, tr2) ->
  exists d, tr2 = tr1 ++ d /\
    map Some (flag_reads d) = map handle_name (ports cfg') /\
    map Some (flag_writes d) = map handle_name (ports cfg') /\
    length (open_fds d) = length (ports cfg').
Proof.
  intros Hen Hstart Hlink.
  destruct (kni_start_inv _ _ _ _ _ _ _ Hen Hstart)
    as (pre & pre' & rest & H1 & H2 & Hatt & Hres).
  destruct Hres as [[_ ->]|[Hr _]]; [|discriminate].
  rewrite app_nil_r in H1, H2.
  assert (Hpre : kni_ifname cfg' = kni_ifname cfg).
  { destruct (kni_start_trace _ _ _ _ _ _ _ Hen Hstart) as (d0 & _ & _ & -> & _).
    reflexivity. }
  unfold kni_link_up in Hlink.
  destruct (kni_link_up_from_trace _ _ _ _ _ _ Hlink) as (d & -> & _ & _ & Hok).
  destruct (Hok eq_refl) as (Ho & Hr & Hw).
  exists d. split; [reflexivity|].
  rewrite H2 in *. rewrite Hr, Hw.
  rewrite (attached_from_link_names _ cfg' _ _ _ Hatt).
  rewrite (attached_from_names _ _ _ _ Hatt), map_map.
  assert (Hnames : forall i, kni_set_name cfg' i = kni_set_name cfg i).
  { intros i. unfold kni_set_name. now rewrite Hpre. }
  repeat split; try (apply map_ext; intros i; now rewrite Hnames).
  rewrite Ho. apply (attached_from_handles_length _ _ _ _ Hatt).
Qed.

Lemma testbit_lor_IFF_UP (read : Z) :
  Z.testbit (Z.lor read IFF_UP) 0 = true /\
  (forall n, 0 < n ->
             Z.testbit (Z.lor read IFF_UP) n = Z.testbit read n).
Proof.
  unfold IFF_UP. split.
  - rewrite Z.lor_spec. simpl. apply orb_true_r.
  - intros n Hn. rewrite Z.lor_spec.
    destruct n as [|q|q]; try lia. simpl. apply orb_false_r.
Qed.

(** X10.  Whatever [kni_set_link_up] writes with SIOCSIFFLAGS, also on
    the path where that write then fails, goes to the descriptor it just
    opened and to the name of the port's position, and is the value read
    with bit 0 (IFF_UP) set and every other bit as read. *)
Theorem kni_set_link_up_only_adds_up (cfg : config) (idx : nat)
        (p : netif_port) (tr : trace) (r : Z) (tr' : trace) :
  kni_set_link_up E cfg idx p tr = (r, tr') ->
  exists d, tr' = tr ++ d /\
    forall fd name flags rs,
      In (Ev_ioctl_SIOCSIFFLAGS fd name flags rs) d ->
      fd = env_socket E tr /\ name = kni_set_name cfg idx /\
      Z.testbit flags 0 = true /\
      forall n, 0 < n ->
        Z.testbit flags n =
        Z.testbit (snd (env_ioctl_get E (tr ++ [Ev_socket fd]) fd name)) n.
Proof.
  rewrite kni_set_link_up_run. destruct (port_kni p); cbv zeta.
  - destruct (env_socket E tr <? 0);
      [|destruct (fst (env_ioctl_get E _ _ _) <? 0);
        [|destruct (env_ioctl_set E _ _ _ _ <? 0)]];
      intros H; inversion H; subst; clear H;
      (eexists; split; [reflexivity|]);
      intros fd name flags rs Hin; simpl in Hin;
      repeat (destruct Hin as [Hin|Hin]; try discriminate);
      try contradiction;
      inversion Hin; subst; clear Hin;
      (split; [reflexivity|]); (split; [reflexivity|]);
      apply testbit_lor_IFF_UP.
  - intros H; inversion H; subst; clear H. exists []. rewrite app_nil_r.
    split; [reflexivity|]. intros fd name flags rs [].
Qed.

(** ** Teardown twice *)

Lemma kni_free_from_none (ps : list netif_port) :
  Forall (fun p => port_kni p = None) ps ->
  forall tr, kni_free_from E ps tr = (ps, tr).
Proof.
  induction 1 as [|p ps Hp _ IH]; intros tr; simpl; [reflexivity|].
  rewrite Hp. unfold Bind. rewrite IH. reflexivity.
Qed.

(** X11.  A second [kni_stop] is silent: run on the configuration a
    first [kni_stop] returned, it calls nothing and returns that
    configuration unchanged. *)
Theorem kni_stop_idempotent (cfg : config) (tr tr2 : trace) :
  kni_stop E (fst (kni_stop E cfg tr)) tr2 = (fst (kni_stop E cfg tr), tr2).
Proof.
  unfold kni_stop at 2 3. destruct (cfg_kni cfg) eqn:Hen.
  - unfold kni_free, Bind.
    destruct (kni_free_from_spec E (ports cfg) tr) as (d & Heq & _).
    rewrite Heq. unfold Ret. simpl.
    unfold kni_stop. simpl. rewrite Hen. unfold kni_free, Bind. simpl.
    rewrite kni_free_from_none; [reflexivity|].
    apply Forall_forall. intros q Hq. apply in_map_iff in Hq.
    destruct Hq as (q0 & <- & _). reflexivity.
  - unfold Ret. simpl. unfold kni_stop. rewrite Hen. reflexivity.
Qed.

(** ** Where a buffer goes *)

(** X12.  [kni_recv] accounts for its buffer exactly once: either the
    kernel-facing queue accepted it or it went to [mbuf_free2], never both
    and never neither; [net_stats_kni_rx] is incremented exactly for an
    accepted buffer, and the queue is offered the buffer at most once. *)
Theorem kni_recv_buffer_accounted (ws : work_space) (m : rte_mbuf)
        (tr : trace) :
  exists d,
    kni_recv E ws m tr = (tt, tr ++ d) /\
    accepted_bufs d ++ freed_bufs d = [m] /\
    kni_rx_count d = length (accepted_bufs d) /\
    (length (filter (fun e => match e with
                              | Ev_rte_kni_tx_burst _ _ _ => true
                              | _ => false
                              end) d) <= 1)%nat.
Proof.
  rewrite kni_recv_run. eexists. split; [reflexivity|].
  destruct (port_kni (ws_port ws)) as [k|]; cbv zeta.
  - unfold accepted_bufs, freed_bufs, kni_rx_count. simpl.
    destruct (env_kni_tx_burst E tr k m =? 1); simpl; auto.
  - simpl. auto.
Qed.

End LinkAndBridge.

(** ** The further properties at concrete hosts *)

Lemma cfg_5_2_fresh : Forall (fun p => port_kni p = None) (ports cfg_5_2).
Proof. repeat constructor. Defined.

(** The start fails at the second port; the stop that follows gives
    [cfg_5_2] back. *)
Lemma kni_start_stop_round_trip_witness :
  fst (fst (kni_start 4 env_port2_fails cfg_5_2 [])) = -1 /\
  fst (kni_stop env_port2_fails
         (snd (fst (kni_start 4 env_port2_fails cfg_5_2 [])))
         (snd (kni_start 4 env_port2_fails cfg_5_2 []))) = cfg_5_2.
Proof.
  split; [reflexivity|].
  destruct (kni_start_stop_round_trip 4 env_port2_fails cfg_5_2 [] (-1)
              (snd (fst (kni_start 4 env_port2_fails cfg_5_2 [])))
              (snd (kni_start 4 env_port2_fails cfg_5_2 []))
              eq_refl cfg_5_2_fresh eq_refl) as (d1 & d2 & _ & Hstop & _).
  rewrite Hstop. reflexivity.
Defined.

(** A second start on top of attached handles releases nothing. *)
Lemma kni_start_never_releases_witness :
  cfg_kni cfg_5_2_started = true /\
  releases (snd (kni_start 4 env_ok cfg_5_2_started [])) = [].
Proof.
  split; [reflexivity|].
  destruct (kni_start_never_releases 4 env_ok cfg_5_2_started [] 0
              (snd (fst (kni_start 4 env_ok cfg_5_2_started [])))
              (snd (kni_start 4 env_ok cfg_5_2_started []))
              eq_refl eq_refl) as (d & Hd & _ & Hrel & _).
  rewrite app_nil_l in Hd. rewrite Hd. exact Hrel.
Defined.

Lemma kni_start_result_witness :
  cfg_kni cfg_5_2 = true /\
  existsb failed_step (snd (kni_start 4 env_port2_fails cfg_5_2 [])) = true.
Proof.
  split; [reflexivity|].
  destruct (kni_start_result 4 env_port2_fails cfg_5_2 [] (-1)
              (snd (fst (kni_start 4 env_port2_fails cfg_5_2 [])))
              (snd (kni_start 4 env_port2_fails cfg_5_2 []))
              eq_refl eq_refl) as (d & Hd & _ & Hiff & _).
  rewrite app_nil_l in Hd. rewrite Hd. apply Hiff. reflexivity.
Defined.

Lemma kni_start_queries_by_port_id_witness :
  cfg_kni cfg_5_2 = true /\
  bounds_queried (snd (kni_start 4 env_ok cfg_5_2 [])) = [5; 2].
Proof.
  split; [reflexivity|].
  destruct (kni_start_queries_by_port_id 4 env_ok cfg_5_2 [] 0
              cfg_5_2_started (snd (kni_start 4 env_ok cfg_5_2 []))
              eq_refl eq_refl) as (d & Hd & H0 & _).
  rewrite app_nil_l in Hd. rewrite Hd. exact (proj1 (H0 eq_refl)).
Defined.

Lemma kni_alloc_mirrors_hardware_witness :
  fst (kni_alloc env_ok cfg_5_2 0 port_without_handle []) =
    port_kni port_with_handle /\
  option_map (fun h => conf_max_mtu (kni_conf h)) (port_kni port_with_handle) =
    Some (dev_max_mtu (snd (env_dev_info_get env_ok [] 5))).
Proof.
  split; [reflexivity|].
  pose proof (kni_alloc_mirrors_hardware env_ok cfg_5_2 0 port_without_handle
                (mk_kni (mk_conf "kni0" 5 2048 [2; 0; 0; 0; 0; 1] 68 9000 1500)
                        7000)
                [] (snd (kni_alloc env_ok cfg_5_2 0 port_without_handle []))
                eq_refl) as H.
  cbv zeta in H. destruct H as (_ & Hmax & _).
  exact (f_equal Some Hmax).
Defined.

Lemma kni_set_name_injective_witness :
  kni_set_name cfg_5_2 1 = kni_set_name cfg_5_2 1 /\ 1%nat = 1%nat.
Proof.
  split; [reflexivity|].
  apply (kni_set_name_injective cfg_5_2 1 1);
    [apply cfg_5_2_fits; simpl; lia | apply cfg_5_2_fits; simpl; lia
    | reflexivity].
Defined.

Lemma kni_link_up_without_handles_witness :
  kni_link_up env_no_socket cfg_off [] = (0, []).
Proof.
  apply (kni_link_up_without_handles env_no_socket cfg_off []).
  repeat constructor.
Defined.

Lemma kni_link_up_footprint_witness :
  fst (kni_link_up env_set_flags_fails cfg_5_2_started []) = -1 /\
  existsb is_kni_call
          (snd (kni_link_up env_set_flags_fails cfg_5_2_started [])) = false.
Proof.
  split; [reflexivity|].
  destruct (kni_link_up_footprint env_set_flags_fails cfg_5_2_started [] (-1)
              (snd (kni_link_up env_set_flags_fails cfg_5_2_started []))
              eq_refl) as (d & Hd & _ & Hk & _).
  rewrite app_nil_l in Hd. rewrite Hd. exact Hk.
Defined.

Lemma kni_link_up_names_match_start_witness :
  cfg_kni cfg_5_2 = true /\
  exists d,
    snd (kni_link_up env_ok cfg_5_2_started
           (snd (kni_start 4 env_ok cfg_5_2 []))) =
      snd (kni_start 4 env_ok cfg_5_2 []) ++ d /\
    map Some (flag_writes d) = [Some "kni0"; Some "kni1"].
Proof.
  split; [reflexivity|].
  destruct (kni_link_up_names_match_start 4 env_ok cfg_5_2 [] cfg_5_2_started
              (snd (kni_start 4 env_ok cfg_5_2 []))
              (snd (kni_link_up env_ok cfg_5_2_started
                      (snd (kni_start 4 env_ok cfg_5_2 []))))
              eq_refl eq_refl eq_refl) as (d & Hd & _ & Hw & _).
  exists d. split; [exact Hd|exact Hw].
Defined.

Lemma kni_set_link_up_only_adds_up_witness :
  fst (kni_set_link_up env_set_flags_fails cfg_5_2_started 1
         port_with_handle []) = -1 /\
  Z.testbit 4099 0 = true /\ Z.testbit 4099 12 = Z.testbit 4098 12.
Proof.
  split; [reflexivity|].
  destruct (kni_set_link_up_only_adds_up env_set_flags_fails cfg_5_2_started 1
              port_with_handle [] (-1)
              (snd (kni_set_link_up env_set_flags_fails cfg_5_2_started 1
                      port_with_handle [])) eq_refl) as (d & Hd & Hall).
  rewrite app_nil_l in Hd.
  assert (Hin : In (Ev_ioctl_SIOCSIFFLAGS 3 "kni1" 4099 (-1)) d).
  { rewrite <- Hd. vm_compute. tauto. }
  destruct (Hall _ _ _ _ Hin) as (_ & _ & H0 & Hn).
  split; [exact H0|exact (Hn 12 eq_refl)].
Defined.
